(** * room-assistant: the cluster service

    A shallow embedding of [src/cluster/cluster.service.ts]: the
    [ClusterService] class, which extends the [Democracy] gossip and
    election engine with a quorum gate, peer-list merging, the rescue of
    manually configured peers and mDNS discovery.

    The class instance ([this]) is a record; methods are computations in a
    small state-and-exception monad over that record.  What the class
    inherits from [Democracy] or receives from the host (the leader test,
    the node listing, the inherited ballot check, the id generator) is
    taken as a section variable; the effects of [send], of the logger and of [setTimeout] /
    [clearTimeout] are recorded in the instance as an outbox, a log and a
    table of pending timeouts. *)

From stdpp Require Import base option list gmap fin_maps strings pretty.

Local Open Scope string_scope.

(** ** JavaScript values found in peer entries

    A peer is a [string[]] read at indexes 0 and 1.  Reading past the end
    of an array yields [undefined], and [handleNodeDiscovery] can store
    [undefined] as a host, so elements are strings or [undefined]. *)

Inductive JsVal : Type :=
  | JUndefined
  | JStr (s : string).

#[global] Instance JsVal_eq_dec : EqDecision JsVal.
Proof. solve_decision. Defined.

(** [a === b] on strings and [undefined]. *)
Definition strict_eq (a b : JsVal) : bool := bool_decide (a = b).

Abbreviation Peer := (list JsVal).

(** [p[i]] *)
Definition at_index (p : Peer) (i : nat) : JsVal := nth i p JUndefined.

(** ** Data model *)

Module NetworkInterfaceInfo.
Record t : Type := mk {
  address : string;
  family : string;
  internal : bool
}.
End NetworkInterfaceInfo.

Module ClusterConfig.
(** [cluster.config.ts] is not among the sources; the fields are the ones
    the service reads.  [networkInterface], [weight] and [quorum] are
    optional there. *)
Record t : Type := mk {
  networkInterface : option string;
  port : N;
  timeout : Z;
  weight : option Z;
  quorum : option Z;
  autoDiscovery : bool;
  peerAddresses : list string
}.
End ClusterConfig.

(** Handles returned by [setTimeout]. *)
Abbreviation Timeout := positive.

Module Node.
Record t : Type := mk {
  id : string;
  source : string;
  weight : Z;
  state : string;
  disconnected : option Timeout
}.

(** [delete node.disconnected] *)
Definition delete_disconnected (n : t) : t :=
  mk (id n) (source n) (weight n) (state n) None.
End Node.

Module Service.
(** A service reported by the mDNS browser. *)
Record t : Type := mk {
  addresses : list string;
  port : N
}.
End Service.

Module Advertisement.
Record t : Type := mk {
  serviceType : string;
  port : N;
  networkInterface : option string;
  running : bool
}.
Definition start (a : t) : t := mk (serviceType a) (port a) (networkInterface a) true.
Definition stop (a : t) : t := mk (serviceType a) (port a) (networkInterface a) false.
End Advertisement.

Inductive Resolver : Type :=
  | DNSServiceResolve
  | DNSServiceGetAddrInfo
  | getaddrinfo (families : list Z)
  | makeAddressesUnique.

Module Browser.
Record t : Type := mk {
  serviceType : string;
  resolverSequence : list Resolver;
  listeners : list string;
  running : bool
}.
Definition on (event : string) (b : t) : t :=
  mk (serviceType b) (resolverSequence b) (listeners b ++ [event]) (running b).
Definition start (b : t) : t := mk (serviceType b) (resolverSequence b) (listeners b) true.
Definition stop (b : t) : t := mk (serviceType b) (resolverSequence b) (listeners b) false.
End Browser.

(** The optional [mdns] module: [None] when [require('mdns')] threw. *)
Module Mdns.
Record t : Type := mk {
  (** ['DNSServiceGetAddrInfo' in mdns.dns_sd] *)
  has_DNSServiceGetAddrInfo : bool
}.
End Mdns.

Inductive LogLevel : Type := LogDebug | LogInfo | LogWarn | LogError.

(** Payload of a message handed to [send]. *)
Inductive Payload : Type :=
  | NoPayload
  | PeersPayload (peers : list Peer).

(** The methods registered as event listeners. *)
Inductive Listener : Type :=
  | L_handleNodeAdded
  | L_handleNodeRemoved
  | L_handleNodeElected
  | L_addMissingPeers.

(** The options object handed to the inherited constructor. *)
Module DemocracyOptions.
Record t : Type := mk {
  id : string;
  source : string;
  peers : list string;
  timeout : Z;
  weight : option Z
}.
End DemocracyOptions.

(** [this.options] as the engine keeps it; the service reads and extends
    [peers], a list of [[host, port]] arrays. *)
Module Options.
Record t : Type := mk {
  peers : list Peer
}.
End Options.

(** The instance.  [timeouts] is the host's table of pending timeouts set
    by the engine, each mapped to the id of the node its callback
    concerns; [outbox] and [log] record the calls to [send] and to the
    logger, oldest first. *)
Record ClusterService : Type := mkClusterService {
  config : ClusterConfig.t;
  networkInterfaces : list NetworkInterfaceInfo.t;
  advertisement : option Advertisement.t;
  browser : option Browser.t;
  options : Options.t;
  _nodes : gmap string Node.t;
  listeners : list (string * Listener);
  timeouts : gmap Timeout string;
  outbox : list (string * Payload);
  log : list (LogLevel * string)
}.

Definition with_config (c : ClusterConfig.t) (this : ClusterService) :=
  mkClusterService c (networkInterfaces this) (advertisement this) (browser this)
    (options this) (_nodes this) (listeners this) (timeouts this) (outbox this) (log this).

Definition with_networkInterfaces (l : list NetworkInterfaceInfo.t) (this : ClusterService) :=
  mkClusterService (config this) l (advertisement this) (browser this)
    (options this) (_nodes this) (listeners this) (timeouts this) (outbox this) (log this).

Definition with_advertisement (a : option Advertisement.t) (this : ClusterService) :=
  mkClusterService (config this) (networkInterfaces this) a (browser this)
    (options this) (_nodes this) (listeners this) (timeouts this) (outbox this) (log this).

Definition with_browser (b : option Browser.t) (this : ClusterService) :=
  mkClusterService (config this) (networkInterfaces this) (advertisement this) b
    (options this) (_nodes this) (listeners this) (timeouts this) (outbox this) (log this).

Definition with_peers (ps : list Peer) (this : ClusterService) :=
  mkClusterService (config this) (networkInterfaces this) (advertisement this) (browser this)
    (Options.mk ps)
    (_nodes this) (listeners this) (timeouts this) (outbox this) (log this).

Definition with_nodes (ns : gmap string Node.t) (this : ClusterService) :=
  mkClusterService (config this) (networkInterfaces this) (advertisement this) (browser this)
    (options this) ns (listeners this) (timeouts this) (outbox this) (log this).

Definition with_listeners (ls : list (string * Listener)) (this : ClusterService) :=
  mkClusterService (config this) (networkInterfaces this) (advertisement this) (browser this)
    (options this) (_nodes this) ls (timeouts this) (outbox this) (log this).

Definition with_timeouts (ts : gmap Timeout string) (this : ClusterService) :=
  mkClusterService (config this) (networkInterfaces this) (advertisement this) (browser this)
    (options this) (_nodes this) (listeners this) ts (outbox this) (log this).

Definition with_outbox (o : list (string * Payload)) (this : ClusterService) :=
  mkClusterService (config this) (networkInterfaces this) (advertisement this) (browser this)
    (options this) (_nodes this) (listeners this) (timeouts this) o (log this).

Definition with_log (l : list (LogLevel * string)) (this : ClusterService) :=
  mkClusterService (config this) (networkInterfaces this) (advertisement this) (browser this)
    (options this) (_nodes this) (listeners this) (timeouts this) (outbox this) l.

(** ** Methods as state-and-exception computations *)

Inductive Error : Type :=
  | TypeError (what : string).

Inductive Result (A : Type) : Type :=
  | Ok (a : A)
  | Throw (e : Error).
Arguments Ok {A} a.
Arguments Throw {A} e.

Definition M (A : Type) : Type := ClusterService → Result (A * ClusterService).

#[global] Instance M_ret : MRet M := λ A a this, Ok (a, this).
#[global] Instance M_bind : MBind M := λ A B f m this,
  match m this with
  | Ok (a, this') => f a this'
  | Throw e => Throw e
  end.

Definition get : M ClusterService := λ this, Ok (this, this).
Definition modify (f : ClusterService → ClusterService) : M unit := λ this, Ok (tt, f this).
Definition throw {A} (e : Error) : M A := λ _, Throw e.

(** The double-quote character, for messages that contain one. *)
Definition dquote : string := String (Ascii.ascii_of_nat 34) EmptyString.

(** [this.send(event, data)] *)
Definition send (event : string) (data : Payload) : M unit :=
  modify (λ this, with_outbox (outbox this ++ [(event, data)]) this).

(** [this.logger.<level>(message)] *)
Definition logger (level : LogLevel) (message : string) : M unit :=
  modify (λ this, with_log (log this ++ [(level, message)]) this).

(** [clearTimeout(handle)]; clearing [undefined] does nothing. *)
Definition clearTimeout (handle : option Timeout) : M unit :=
  match handle with
  | Some h => modify (λ this, with_timeouts (delete h (timeouts this)) this)
  | None => mret tt
  end.

(** [Object.values(map)] *)
Definition Object_values {V} (m : gmap string V) : list V := (map_to_list m).*2.

(** Truthiness of an optional number: [undefined] and [0] are falsy. *)
Definition truthy_number (q : option Z) : bool :=
  match q with
  | Some q => negb (q =? 0)%Z
  | None => false
  end.

(** ** Queries *)

Section Leadership.
(** [nodes()] of the inherited engine, a query of the instance: the node
    map the engine reports, which need not be the field [_nodes]. *)
Variable nodes : ClusterService → gmap string Node.t.
(** [isLeader()] of the inherited engine, a query of the instance. *)
Variable isLeader : ClusterService → bool.

(** [quorumReached()] *)
Definition quorumReached : M bool :=
  this ← get;
  let activeNodes :=
    filter (λ node, Node.state node ≠ "removed") (Object_values (nodes this)) in
  mret (negb (truthy_number (ClusterConfig.quorum (config this)))
        || match ClusterConfig.quorum (config this) with
           | Some q => bool_decide (q ≤ Z.of_nat (length activeNodes))%Z
           | None => false
           end).

(** [isMajorityLeader()] *)
Definition isMajorityLeader : M bool :=
  this ← get;
  if isLeader this then quorumReached else mret false.
End Leadership.

(** The number of nodes of a node map whose state is not ['removed']. *)
Definition activeCount (ns : gmap string Node.t) : nat :=
  size (filter (λ kv : string * Node.t, Node.state kv.2 ≠ "removed") ns).

(** ** The peer list *)

(** [array.findIndex(f)]: the index of the first element satisfying [f],
    or -1. *)
Fixpoint findIndex_from {A} (f : A → bool) (l : list A) (i : Z) : Z :=
  match l with
  | [] => (-1)%Z
  | x :: l' => if f x then i else findIndex_from f l' (i + 1)%Z
  end.

Definition findIndex {A} (f : A → bool) (l : list A) : Z := findIndex_from f l 0%Z.

(** [array.forEach(body)] *)
Fixpoint forEach {A} (l : list A) (body : A → M unit) : M unit :=
  match l with
  | [] => mret tt
  | x :: l' => body x ;; forEach l' body
  end.

(** [this.options.peers.push(peer)] *)
Definition push_peer (peer : Peer) : M unit :=
  modify (λ this, with_peers (Options.peers (options this) ++ [peer]) this).

(** The test [p => p[0] === peer[0] && p[1] === peer[1]]. *)
Definition same_peer (peer p : Peer) : bool :=
  strict_eq (at_index p 0) (at_index peer 0) && strict_eq (at_index p 1) (at_index peer 1).

(** [addMissingPeers(peers)] *)
Definition addMissingPeers (peers : list Peer) : M unit :=
  forEach peers (λ peer,
    this ← get;
    let index := findIndex (same_peer peer) (Options.peers (options this)) in
    if (index <? 0)%Z then push_peer peer else mret tt).

(** [broadcastPeers()] *)
Definition broadcastPeers : M unit :=
  this ← get;
  send "peers" (PeersPayload (Options.peers (options this))).

(** ** Event handlers *)

Definition handleNodeAdded (node : Node.t) : M unit :=
  logger LogInfo ("Added " ++ Node.source node ++ " to the cluster with id " ++ Node.id node) ;;
  broadcastPeers.

Definition handleNodeRemoved (node : Node.t) : M unit :=
  logger LogInfo ("Removed " ++ Node.source node ++ " from the cluster with id " ++ Node.id node).

Definition handleNodeElected (node : Node.t) : M unit :=
  logger LogInfo (Node.id node ++ " has been elected as leader").

(** [this.on(event, listener)] *)
Definition on (event : string) (listener : Listener) : M unit :=
  modify (λ this, with_listeners (listeners this ++ [(event, listener)]) this).

(** [onModuleInit()] *)
Definition onModuleInit : M unit :=
  on "added" L_handleNodeAdded ;;
  on "removed" L_handleNodeRemoved ;;
  on "elected" L_handleNodeElected ;;
  on "peers" L_addMissingPeers.

(** ** The ballot check *)

Section Ballots.
(** [super.checkBallots(candidate)], the ballot check of the inherited
    engine. *)
Variable superCheckBallots : string → M unit.

(** [checkBallots(candidate)].  [this._nodes[candidate]] is read without a
    test, so reading [source] of a missing entry raises a [TypeError]. *)
Definition checkBallots (candidate : string) : M unit :=
  superCheckBallots candidate ;;
  this ← get;
  match _nodes this !! candidate with
  | None => throw (TypeError "Cannot read property 'source' of undefined")
  | Some node =>
      if bool_decide (Node.source node ∈ ClusterConfig.peerAddresses (config this)) then
        logger LogDebug
          ("Saving configured peer " ++ Node.source node ++ " from ultimate removal") ;;
        clearTimeout (Node.disconnected node) ;;
        modify (λ this,
          with_nodes (<[candidate := Node.delete_disconnected node]> (_nodes this)) this)
      else mret tt
  end.
End Ballots.

(** ** Discovery *)

Section Discovery.
(** The module-level [mdns]: [None] when the dependency could not be
    loaded. *)
Variable mdns : option Mdns.t.

(** [startBonjourDiscovery()] *)
Definition startBonjourDiscovery : M unit :=
  match mdns with
  | None => throw (TypeError "Cannot read property 'createAdvertisement' of undefined")
  | Some m =>
      this ← get;
      modify (with_advertisement (Some
        (Advertisement.mk "room-assistant" (ClusterConfig.port (config this))
           (ClusterConfig.networkInterface (config this)) false))) ;;
      let sequence :=
        [ DNSServiceResolve;
          if Mdns.has_DNSServiceGetAddrInfo m then DNSServiceGetAddrInfo else getaddrinfo [0%Z];
          makeAddressesUnique ] in
      modify (with_browser (Some (Browser.mk "room-assistant" sequence [] false))) ;;
      modify (λ this, with_browser (Browser.on "serviceUp" <$> browser this) this) ;;
      modify (λ this, with_browser (Browser.on "error" <$> browser this) this) ;;
      logger LogInfo "Starting mDNS advertisements and discovery" ;;
      modify (λ this, with_advertisement (Advertisement.start <$> advertisement this) this) ;;
      modify (λ this, with_browser (Browser.start <$> browser this) this)
  end.

(** [onApplicationBootstrap()] *)
Definition onApplicationBootstrap : M unit :=
  this ← get;
  (if ClusterConfig.autoDiscovery (config this) then
     match mdns with
     | Some _ => startBonjourDiscovery
     | None =>
         logger LogWarn
           ("Dependency " ++ dquote ++ "mdns" ++ dquote
            ++ " was not found, automatic discovery has been disabled. You will have to provide the addresses of other room-assistant nodes manually in the config.")
     end
   else mret tt) ;;
  broadcastPeers.
End Discovery.

(** [onApplicationShutdown()]: [this.advertisement?.stop()] and
    [this.browser?.stop()]. *)
Definition onApplicationShutdown : M unit :=
  modify (λ this, with_advertisement (Advertisement.stop <$> advertisement this) this) ;;
  modify (λ this, with_browser (Browser.stop <$> browser this) this).

(** [number.toString()] for a port. *)
Definition toString (n : N) : string := pretty n.

(** [handleNodeDiscovery(service)] *)
Definition handleNodeDiscovery (service : Service.t) : M unit :=
  this ← get;
  let ownIps := NetworkInterfaceInfo.address <$> networkInterfaces this in
  if existsb (λ address, bool_decide (address ∈ ownIps)) (Service.addresses service)
     || existsb (λ peer,
          existsb (λ address,
            strict_eq (at_index peer 0) (JStr address)
            && strict_eq (at_index peer 1) (JStr (toString (Service.port service))))
            (Service.addresses service))
          (Options.peers (options this))
  then mret tt
  else
    push_peer [ match Service.addresses service with
                | address :: _ => JStr address
                | [] => JUndefined
                end;
                JStr (toString (Service.port service)) ] ;;
    send "hello" NoPayload.

(** ** Construction *)

Section Construction.
(** [makeId] of [util/id], which is not among the sources. *)
Variable makeId : string → string.
(** The inherited constructor, which builds the engine from its options. *)
Variable Democracy : DemocracyOptions.t → ClusterService.

(** [os.networkInterfaces()[name]]; a missing key reads [undefined]. *)
Definition interfaces_of (os_networkInterfaces : list (string * list NetworkInterfaceInfo.t))
    (name : string) : option (list NetworkInterfaceInfo.t) :=
  snd <$> List.find (λ kv, bool_decide (kv.1 = name)) os_networkInterfaces.

(** The argument and result of [_.flatMap] in the constructor: the
    addresses of the configured interface when [config.networkInterface]
    is truthy, of all interfaces otherwise.  [_.flatMap(undefined)] is
    empty. *)
Definition selectedInterfaces (cfg : ClusterConfig.t)
    (os_networkInterfaces : list (string * list NetworkInterfaceInfo.t))
    : list NetworkInterfaceInfo.t :=
  match ClusterConfig.networkInterface cfg with
  | Some (String c name) => default [] (interfaces_of os_networkInterfaces (String c name))
  | Some EmptyString | None => concat (snd <$> os_networkInterfaces)
  end.

(** The predicate handed to [find]. *)
Definition external_IPv4 (address : NetworkInterfaceInfo.t) : bool :=
  bool_decide (NetworkInterfaceInfo.internal address = false)
  && bool_decide (NetworkInterfaceInfo.family address = "IPv4").

(** The options the constructor hands to [super] for a found address
    [ip]. *)
Definition democracyOptions (cfg : ClusterConfig.t) (instanceName ip : string)
    : DemocracyOptions.t :=
  DemocracyOptions.mk
    (makeId instanceName)
    (ip ++ ":" ++ toString (ClusterConfig.port cfg))
    (ClusterConfig.peerAddresses cfg)
    (ClusterConfig.timeout cfg * 1000)%Z
    (ClusterConfig.weight cfg).

(** [new ClusterService(configService)], with the two configuration
    sections and the host's interface table as arguments.  Reading
    [address] of the [undefined] that [find] returns raises a
    [TypeError]. *)
Definition constructor (cfg : ClusterConfig.t) (instanceName : string)
    (os_networkInterfaces : list (string * list NetworkInterfaceInfo.t))
    : Result ClusterService :=
  let networkInterfaces := selectedInterfaces cfg os_networkInterfaces in
  match List.find external_IPv4 networkInterfaces with
  | None => Throw (TypeError "Cannot read property 'address' of undefined")
  | Some found =>
      let ip := NetworkInterfaceInfo.address found in
      let this := Democracy (democracyOptions cfg instanceName ip) in
      Ok (with_config cfg (with_networkInterfaces networkInterfaces this))
  end.
End Construction.

(** ** The inherited engine around the ballot check

    The purge of a removed node and the refresh of a node on an incoming
    message belong to the inherited engine, whose code is not among the
    sources. *)

(** Modelled from the spec: the engine's removal timeout firing (the code
    of the timer callback is missing).  Section 4.2: "removed → (purged):
    after an additional grace period, the entry is deleted from the map".
    A handle that is not pending, because it was cleared or never set, does
    not fire. *)
Definition fireTimeout (handle : Timeout) (this : ClusterService) : ClusterService :=
  match timeouts this !! handle with
  | None => this
  | Some candidate =>
      let this' := with_timeouts (delete handle (timeouts this)) this in
      match _nodes this' !! candidate with
      | Some node =>
          if bool_decide (Node.state node = "removed")
          then with_nodes (delete candidate (_nodes this')) this'
          else this'
      | None => this'
      end
  end.

(** Modelled from the spec: the engine's [upsert] on a received message (the
    code of the message handler is missing).  Section 4.2:
    "upsert(nodeId, source, weight) inserts or refreshes a node and resets
    its timer"; "suspect → active: any message arrives before the removal
    timer fires; timer is cancelled". *)
Definition upsert (nodeId source : string) (weight : Z) : M unit :=
  this ← get;
  match _nodes this !! nodeId with
  | Some node =>
      clearTimeout (Node.disconnected node) ;;
      modify (λ this,
        with_nodes (<[nodeId := Node.mk (Node.id node) source weight "active" None]>
                      (_nodes this)) this)
  | None =>
      modify (λ this,
        with_nodes (<[nodeId := Node.mk nodeId source weight "active" None]> (_nodes this)) this)
  end.

Section Engine.
Variable superCheckBallots : string → M unit.

(** What the engine does between two messages: a pending timeout fires, or
    votes are counted for some candidate. *)
Inductive engine_step : ClusterService → ClusterService → Prop :=
  | step_timeout handle this :
      engine_step this (fireTimeout handle this)
  | step_ballots candidate this this' :
      checkBallots superCheckBallots candidate this = Ok (tt, this') →
      engine_step this this'.

(** What the service relies on in the inherited ballot check: it leaves the
    configuration alone, neither drops, adds nor re-addresses a node, and
    the only timeout it arms is the candidate's, kept in the candidate's
    [disconnected] field. *)
Definition inherited_ballots_ok : Prop :=
  ∀ candidate this this',
    superCheckBallots candidate this = Ok (tt, this') →
    config this' = config this
    ∧ (∀ k, Node.source <$> _nodes this' !! k = Node.source <$> _nodes this !! k)
    ∧ (∀ h k, timeouts this' !! h = Some k →
         timeouts this !! h = Some k
         ∨ (k = candidate
            ∧ ∃ node, _nodes this' !! candidate = Some node
                      ∧ Node.disconnected node = Some h)).
End Engine.

(** A node whose source is one of the configured peer addresses. *)
Definition configured_peer (this : ClusterService) (node : Node.t) : Prop :=
  Node.source node ∈ ClusterConfig.peerAddresses (config this).

(** No pending timeout concerns a configured peer. *)
Definition configured_peers_spared (this : ClusterService) : Prop :=
  ∀ h k node,
    timeouts this !! h = Some k → _nodes this !! k = Some node →
    ¬ configured_peer this node.

(** ** Notions used to state the properties *)

(** The pair a peer entry is compared by. *)
Definition peer_key (p : Peer) : JsVal * JsVal := (at_index p 0, at_index p 1).

(** The peer list after the loop of [addMissingPeers], as a function of
    the list before it. *)
Fixpoint merge_peers (existing incoming : list Peer) : list Peer :=
  match incoming with
  | [] => existing
  | peer :: rest =>
      merge_peers
        (if existsb (same_peer peer) existing then existing else (existing ++ [peer])%list) rest
  end.

(** The entries the loop appends. *)
Fixpoint fresh_peers (existing incoming : list Peer) : list Peer :=
  match incoming with
  | [] => []
  | peer :: rest =>
      if existsb (same_peer peer) existing then fresh_peers existing rest
      else peer :: fresh_peers ((existing ++ [peer])%list) rest
  end.

(** The instance after the rescue of [node], registered under
    [candidate]. *)
Definition rescued (candidate : string) (node : Node.t) (this : ClusterService)
    : ClusterService :=
  let logged :=
    with_log (log this ++ [(LogDebug,
      ("Saving configured peer " ++ Node.source node ++ " from ultimate removal"))])
      this in
  let cleared :=
    match Node.disconnected node with
    | Some h => with_timeouts (delete h (timeouts logged)) logged
    | None => logged
    end in
  with_nodes (<[candidate := Node.delete_disconnected node]> (_nodes cleared)) cleared.


(** An address of the instance's own interfaces. *)
Definition own_address (this : ClusterService) (address : string) : Prop :=
  address ∈ NetworkInterfaceInfo.address <$> networkInterfaces this.

(** An address already in the peer list with the given port. *)
Definition known_peer (this : ClusterService) (address : string) (port : N) : Prop :=
  ∃ peer, peer ∈ Options.peers (options this)
          ∧ at_index peer 0 = JStr address
          ∧ at_index peer 1 = JStr (toString port).

(** Discovery as the specification words it, address by address: every
    discovered address that is neither the instance's own nor already
    known is added to the peer list and triggers a hello. *)
Definition every_new_address_added (this : ClusterService) (service : Service.t) : Prop :=
  ∀ address,
    address ∈ Service.addresses service →
    ¬ own_address this address →
    ¬ known_peer this address (Service.port service) →
    ∃ this',
      handleNodeDiscovery service this = Ok (tt, this')
      ∧ known_peer this' address (Service.port service)
      ∧ ("hello", NoPayload) ∈ outbox this'.

(** Shutdown as the specification words it: discovery is stopped, no
    timeout stays pending and nothing the engine does afterwards sends a
    message. *)
Definition shutdown_quiesces (this : ClusterService) : Prop :=
  ∃ this',
    onApplicationShutdown this = Ok (tt, this')
    ∧ Advertisement.running <$> advertisement this' ≠ Some true
    ∧ Browser.running <$> browser this' ≠ Some true
    ∧ timeouts this' = ∅
    ∧ ∀ this'', broadcastPeers this' = Ok (tt, this'') → outbox this'' = outbox this'.

(** ** A sample cluster

    A three-node cluster with one manually configured peer, and an
    instance of the inherited ballot check, to run the service on. *)

Definition sample_config : ClusterConfig.t :=
  ClusterConfig.mk None 6425 60 (Some 1%Z) (Some 2%Z) true ["192.168.1.11:6425"].

Definition sample_interfaces : list (string * list NetworkInterfaceInfo.t) :=
  [ ("lo", [NetworkInterfaceInfo.mk "127.0.0.1" "IPv4" true;
            NetworkInterfaceInfo.mk "::1" "IPv6" true]);
    ("eth0", [NetworkInterfaceInfo.mk "fe80::1" "IPv6" false;
              NetworkInterfaceInfo.mk "192.168.1.10" "IPv4" false]) ].

Definition kitchen : Node.t := Node.mk "kitchen-a1" "192.168.1.11:6425" 1 "citizen" None.
Definition hallway : Node.t := Node.mk "hallway-b2" "192.168.1.12:6425" 1 "citizen" None.

Definition sample : ClusterService :=
  mkClusterService sample_config (concat (snd <$> sample_interfaces)) None None
    (Options.mk [[JStr "192.168.1.11"; JStr "6425"]])
    (<["kitchen-a1" := kitchen]> (<["hallway-b2" := hallway]> ∅))
    [] ∅ [] [].

(** An instance of the inherited ballot check, for a vote that has reached
    consensus: the candidate is marked ['removed'] and its removal timeout
    is armed anew, the handle kept in [disconnected]. *)
Definition votedOut (candidate : string) : M unit :=
  this ← get;
  match _nodes this !! candidate with
  | None => throw (TypeError "Cannot read property 'state' of undefined")
  | Some node =>
      clearTimeout (Node.disconnected node) ;;
      this ← get;
      let handle := fresh (dom (timeouts this)) in
      modify (with_timeouts (<[handle := candidate]> (timeouts this))) ;;
      modify (λ this,
        with_nodes
          (<[candidate := Node.mk (Node.id node) (Node.source node) (Node.weight node)
                            "removed" (Some handle)]> (_nodes this)) this)
  end.

(** The sample once the hallway node has been voted out. *)
Definition sample_after_vote : ClusterService :=
  match checkBallots votedOut "hallway-b2" sample with
  | Ok (_, this) => this
  | Throw _ => sample
  end.

(** The source the constructor hands to the engine on the sample host. *)
Definition options_source_of_sample : string :=
  match List.find external_IPv4 (selectedInterfaces sample_config sample_interfaces) with
  | Some found =>
      DemocracyOptions.source
        (democracyOptions (λ name, name) sample_config "kitchen"
           (NetworkInterfaceInfo.address found))
  | None => EmptyString
  end.

(** A service with two addresses, neither known. *)
Definition two_address_service : Service.t :=
  Service.mk ["192.168.1.20"; "192.168.1.21"] 6425.

(** A service whose address is already in the peer list. *)
Definition known_service : Service.t :=
  Service.mk ["192.168.1.11"] 6425.

(** An instance of the inherited [nodes()]: the registered nodes together
    with the local node. *)
Definition sample_nodes (this : ClusterService) : gmap string Node.t :=
  <["livingroom-00" := Node.mk "livingroom-00" "192.168.1.10:6425" 1 "citizen" None]>
    (_nodes this).


(** The sample with the quorum threshold left out of the configuration. *)
Definition sample_without_quorum : ClusterService :=
  with_config
    (ClusterConfig.mk None 6425 60 (Some 1%Z) None true ["192.168.1.11:6425"]) sample.

(** The sample with a threshold above the number of nodes, the local one
    included. *)
Definition sample_strict_quorum : ClusterService :=
  with_config
    (ClusterConfig.mk None 6425 60 (Some 1%Z) (Some 4%Z) true ["192.168.1.11:6425"]) sample.

(** The sample configuration restricted to an interface the host lacks. *)
Definition sample_config_wlan : ClusterConfig.t :=
  ClusterConfig.mk (Some "wlan0") 6425 60 (Some 1%Z) (Some 2%Z) true ["192.168.1.11:6425"].

(** A loaded [mdns] module that offers [DNSServiceGetAddrInfo]. *)
Definition sample_mdns : Mdns.t := Mdns.mk true.

(** A service announced from the sample host's own address. *)
Definition own_service : Service.t :=
  Service.mk ["192.168.1.30"; "192.168.1.10"] 6425.

(** The kitchen node once voted out, and the sample after the inherited
    check has voted it out. *)
Definition kitchen_voted : Node.t :=
  Node.mk "kitchen-a1" "192.168.1.11:6425" 1 "removed" (Some 1%positive).

Definition sample_kitchen_voted : ClusterService :=
  with_nodes (<["kitchen-a1" := kitchen_voted]> (_nodes sample))
    (with_timeouts (<[1%positive := "kitchen-a1"]> ∅) sample).

(** * Properties *)

Local Close Scope string_scope.

(** ** Running the computations *)

Lemma with_peers_same (this : ClusterService) :
  with_peers (Options.peers (options this)) this = this.
Proof. by destruct this as [? ? ? ? [?] ? ? ? ? ?]. Qed.

Lemma with_peers_twice (ps qs : list Peer) (this : ClusterService) :
  with_peers qs (with_peers ps this) = with_peers qs this.
Proof. reflexivity. Qed.

Lemma findIndex_from_bounds {A} (f : A → bool) (l : list A) (i : Z) :
  (0 ≤ i)%Z →
  if existsb f l then (i ≤ findIndex_from f l i)%Z else findIndex_from f l i = (-1)%Z.
Proof.
  revert i. induction l as [|x l IH]; intros i Hi; simpl; [done|].
  destruct (f x); simpl; [lia|].
  specialize (IH (i + 1)%Z ltac:(lia)).
  destruct (existsb f l); lia.
Qed.

Lemma findIndex_negative {A} (f : A → bool) (l : list A) :
  (findIndex f l <? 0)%Z = negb (existsb f l).
Proof.
  pose proof (findIndex_from_bounds f l 0%Z ltac:(lia)) as H.
  unfold findIndex. destruct (existsb f l); simpl.
  - apply Z.ltb_ge. lia.
  - by rewrite H.
Qed.

Lemma bind_run {A B} (m : M A) (f : A → M B) (this : ClusterService) :
  (m ≫= f) this
  = match m this with
    | Ok (a, this') => f a this'
    | Throw e => Throw e
    end.
Proof. reflexivity. Qed.

Lemma bind_get {B} (f : ClusterService → M B) (this : ClusterService) :
  (get ≫= f) this = f this this.
Proof. reflexivity. Qed.

Lemma bind_modify {B} (g : ClusterService → ClusterService) (f : unit → M B)
    (this : ClusterService) :
  (modify g ≫= f) this = f tt (g this).
Proof. reflexivity. Qed.

Lemma forEach_cons_run {A} (x : A) (l : list A) (body : A → M unit) (this : ClusterService) :
  forEach (x :: l) body this
  = match body x this with
    | Ok (_, this') => forEach l body this'
    | Throw e => Throw e
    end.
Proof. reflexivity. Qed.

(** ** Quorum and leadership *)

Lemma length_active_values (ns : gmap string Node.t) :
  length (filter (λ node, Node.state node ≠ "removed"%string) (Object_values ns))
  = size (filter (λ kv : string * Node.t, Node.state kv.2 ≠ "removed"%string) ns).
Proof.
  unfold Object_values.
  induction ns as [|k n ns Hk IH] using map_ind.
  - by rewrite map_to_list_empty, map_filter_empty, map_size_empty.
  - rewrite map_to_list_insert by done.
    rewrite fmap_cons, filter_cons. simpl.
    destruct (decide (Node.state n ≠ "removed"%string)) as [Hn|Hn].
    + rewrite map_filter_insert_True by done.
      rewrite map_size_insert_None by (by rewrite map_lookup_filter_None; left).
      simpl. by rewrite IH.
    + rewrite map_filter_insert_not' by (by simpl; rewrite ?Hk).
      done.
Qed.

Lemma quorumReached_run (nodes : ClusterService → gmap string Node.t)
    (this : ClusterService) :
  quorumReached nodes this
  = Ok (negb (truthy_number (ClusterConfig.quorum (config this)))
        || match ClusterConfig.quorum (config this) with
           | Some q => bool_decide (q ≤ Z.of_nat (activeCount (nodes this)))%Z
           | None => false
           end, this).
Proof.
  unfold activeCount. rewrite <- length_active_values. reflexivity.
Qed.

(** C2. With a configured threshold [q], [quorumReached()] answers [true]
    exactly when [q] is 0 or at least [q] nodes of the node map that
    [nodes()] reports are in a state other than ['removed']; it returns
    normally and leaves the instance as it found it. *)
Theorem quorumReached_spec (nodes : ClusterService → gmap string Node.t)
    (this : ClusterService) (q : Z) :
  ClusterConfig.quorum (config this) = Some q →
  ∃ b : bool,
    quorumReached nodes this = Ok (b, this)
    ∧ (b = true ↔ q = 0%Z ∨ (q ≤ Z.of_nat (activeCount (nodes this)))%Z).
Proof.
  intros Hq. rewrite quorumReached_run, Hq. eexists. split; [done|].
  simpl. rewrite orb_true_iff, negb_true_iff, negb_false_iff.
  rewrite Z.eqb_eq, bool_decide_eq_true. done.
Qed.

(** C1. [isMajorityLeader()] answers [true] exactly when the local node is
    the leader and [quorumReached()] answers [true]; in particular it
    answers [false] whenever [quorumReached()] does, whoever leads. *)
Theorem isMajorityLeader_spec (nodes : ClusterService → gmap string Node.t)
    (isLeader : ClusterService → bool) (this : ClusterService) :
  ∃ b q : bool,
    isMajorityLeader nodes isLeader this = Ok (b, this)
    ∧ quorumReached nodes this = Ok (q, this)
    ∧ (b = true ↔ isLeader this = true ∧ q = true)
    ∧ (q = false → b = false).
Proof.
  rewrite quorumReached_run.
  unfold isMajorityLeader, mbind, M_bind, get.
  destruct (isLeader this); [rewrite quorumReached_run|];
    eexists _, _; (split; [reflexivity|]); (split; [reflexivity|]);
    split; intuition congruence.
Qed.

(** ** Merging peer lists *)

Lemma same_peer_key (peer p : Peer) :
  same_peer peer p = true ↔ peer_key p = peer_key peer.
Proof.
  unfold same_peer, strict_eq, peer_key.
  rewrite andb_true_iff, !bool_decide_eq_true. split; [intros [-> ->]|intros [= -> ->]]; done.
Qed.

Lemma existsb_same_peer (peer : Peer) (l : list Peer) :
  existsb (same_peer peer) l = true ↔ peer_key peer ∈ peer_key <$> l.
Proof.
  rewrite existsb_exists, list_elem_of_fmap. split.
  - intros (p & Hin & Hp). exists p. rewrite <- list_elem_of_In in Hin.
    apply same_peer_key in Hp. done.
  - intros (p & Hk & Hin). exists p. rewrite <- list_elem_of_In.
    split; [done|]. by apply same_peer_key.
Qed.

Lemma existsb_same_peer_false (peer : Peer) (l : list Peer) :
  existsb (same_peer peer) l = false ↔ peer_key peer ∉ peer_key <$> l.
Proof. rewrite <- existsb_same_peer. destruct (existsb _ l); naive_solver. Qed.

Lemma addMissingPeers_run (incoming : list Peer) (this : ClusterService) :
  addMissingPeers incoming this
  = Ok (tt, with_peers (merge_peers (Options.peers (options this)) incoming) this).
Proof.
  unfold addMissingPeers. revert this.
  induction incoming as [|peer rest IH]; intros this.
  - simpl. by rewrite with_peers_same.
  - rewrite forEach_cons_run, bind_get, findIndex_negative.
    cbn [merge_peers].
    destruct (existsb (same_peer peer) (Options.peers (options this))); simpl.
    + apply IH.
    + rewrite IH. reflexivity.
Qed.

Lemma merge_peers_fresh (existing incoming : list Peer) :
  merge_peers existing incoming = existing ++ fresh_peers existing incoming.
Proof.
  revert existing. induction incoming as [|peer rest IH]; intros existing; simpl.
  - by rewrite app_nil_r.
  - destruct (existsb (same_peer peer) existing); rewrite IH; [done|].
    by rewrite <- app_assoc.
Qed.

Lemma fresh_peers_sublist (existing incoming : list Peer) :
  sublist (fresh_peers existing incoming) incoming.
Proof.
  revert existing. induction incoming as [|peer rest IH]; intros existing; simpl.
  - constructor.
  - destruct (existsb (same_peer peer) existing); [apply sublist_cons|apply sublist_skip]; apply IH.
Qed.

Lemma fresh_peers_unmatched (existing incoming : list Peer) (peer : Peer) :
  peer ∈ fresh_peers existing incoming → peer_key peer ∉ peer_key <$> existing.
Proof.
  revert existing. induction incoming as [|p rest IH]; intros existing; simpl.
  - by intros ?%elem_of_nil.
  - destruct (existsb (same_peer p) existing) eqn:Hp; [apply IH|].
    intros [->|Hin]%elem_of_cons.
    + by apply existsb_same_peer_false.
    + apply IH in Hin. rewrite fmap_app in Hin.
      intros Hk. apply Hin, elem_of_app. by left.
Qed.

Lemma fresh_peers_covers (existing incoming : list Peer) (peer : Peer) :
  peer ∈ incoming → peer_key peer ∉ peer_key <$> existing →
  peer_key peer ∈ peer_key <$> fresh_peers existing incoming.
Proof.
  revert existing. induction incoming as [|p rest IH]; intros existing; simpl.
  - by intros ?%elem_of_nil.
  - intros Hin Hnew.
    destruct (existsb (same_peer p) existing) eqn:Hp.
    + apply existsb_same_peer in Hp.
      apply elem_of_cons in Hin as [->|Hin]; [done|]. by apply IH.
    + rewrite fmap_cons.
      destruct (decide (peer_key peer = peer_key p)) as [->|Hne]; [left|].
      apply elem_of_cons in Hin as [->|Hin]; [done|].
      apply list_elem_of_further, IH; [done|].
      rewrite fmap_app. simpl.
      intros [Hk|Hk%list_elem_of_singleton]%elem_of_app; done.
Qed.

Lemma merge_peers_unique (existing incoming : list Peer) :
  NoDup (peer_key <$> existing) → NoDup (peer_key <$> merge_peers existing incoming).
Proof.
  revert existing. induction incoming as [|p rest IH]; intros existing Hnd; simpl; [done|].
  apply IH. destruct (existsb (same_peer p) existing) eqn:Hp; [done|].
  apply existsb_same_peer_false in Hp.
  rewrite fmap_app. apply NoDup_app. split; [done|]. split.
  - simpl. intros k Hk ->%list_elem_of_singleton. done.
  - simpl. apply NoDup_singleton.
Qed.

Lemma fresh_peers_unique (existing incoming : list Peer) :
  NoDup (peer_key <$> fresh_peers existing incoming).
Proof.
  revert existing. induction incoming as [|p rest IH]; intros existing; simpl.
  - constructor.
  - destruct (existsb (same_peer p) existing) eqn:Hp; [apply IH|].
    rewrite fmap_cons. constructor; [|apply IH].
    intros (q & Hk & Hq)%list_elem_of_fmap.
    apply fresh_peers_unmatched in Hq. rewrite fmap_app in Hq.
    apply Hq. rewrite <- Hk. apply elem_of_app. right. simpl. left.
Qed.

Lemma merge_peers_settled (existing incoming : list Peer) :
  (∀ peer, peer ∈ incoming → peer_key peer ∈ peer_key <$> existing) →
  merge_peers existing incoming = existing.
Proof.
  induction incoming as [|p rest IH]; intros Hall; simpl; [done|].
  assert (existsb (same_peer p) existing = true) as ->.
  { apply existsb_same_peer, Hall. left. }
  apply IH. intros peer Hin. apply Hall. by right.
Qed.

Lemma merge_peers_contains (existing incoming : list Peer) (peer : Peer) :
  peer ∈ incoming → peer_key peer ∈ peer_key <$> merge_peers existing incoming.
Proof.
  intros Hin. rewrite merge_peers_fresh, fmap_app.
  destruct (decide (peer_key peer ∈ peer_key <$> existing)) as [|Hnew];
    [by apply elem_of_app; left|].
  apply elem_of_app. right. by apply fresh_peers_covers.
Qed.

(** C4. Merging the same incoming list a second time changes nothing: the
    second [addMissingPeers] returns normally and leaves the instance, and
    so the peer list, as the first one left it. *)
Theorem addMissingPeers_idempotent (incoming : list Peer) (this : ClusterService) :
  ∃ this1,
    addMissingPeers incoming this = Ok (tt, this1)
    ∧ addMissingPeers incoming this1 = Ok (tt, this1).
Proof.
  eexists. split; [apply addMissingPeers_run|].
  rewrite addMissingPeers_run. simpl.
  rewrite merge_peers_settled; [done|].
  intros peer Hin. by apply merge_peers_contains.
Qed.

(** C5. A merge leaves the existing entries in place and appends, in their
    order of arrival, incoming entries that match no existing entry by
    (host, port): every appended entry is such an entry, every such entry
    is appended or has its (host, port) appended with an earlier one, none
    is appended twice, and a peer list that was unique by (host, port)
    stays so. *)
Theorem addMissingPeers_appends_unmatched (incoming : list Peer) (this : ClusterService) :
  let existing := Options.peers (options this) in
  ∃ added,
    addMissingPeers incoming this = Ok (tt, with_peers (existing ++ added) this)
    ∧ sublist added incoming
    ∧ (∀ peer, peer ∈ added → peer_key peer ∉ peer_key <$> existing)
    ∧ (∀ peer, peer ∈ incoming → peer_key peer ∉ peer_key <$> existing →
         peer_key peer ∈ peer_key <$> added)
    ∧ NoDup (peer_key <$> added)
    ∧ (NoDup (peer_key <$> existing) → NoDup (peer_key <$> existing ++ added)).
Proof.
  intros existing. exists (fresh_peers existing incoming).
  rewrite addMissingPeers_run, merge_peers_fresh.
  split; [done|]. split; [apply fresh_peers_sublist|].
  split; [apply fresh_peers_unmatched|]. split; [apply fresh_peers_covers|].
  split; [apply fresh_peers_unique|].
  intros Hnd. rewrite <- merge_peers_fresh. by apply merge_peers_unique.
Qed.

(** ** The ballot check *)

Lemma checkBallots_run (superCheckBallots : string → M unit) (candidate : string)
    (this this1 : ClusterService) :
  superCheckBallots candidate this = Ok (tt, this1) →
  checkBallots superCheckBallots candidate this
  = match _nodes this1 !! candidate with
    | None => Throw (TypeError "Cannot read property 'source' of undefined")
    | Some node =>
        if bool_decide (Node.source node ∈ ClusterConfig.peerAddresses (config this1))
        then Ok (tt, rescued candidate node this1)
        else Ok (tt, this1)
    end.
Proof.
  intros Hsuper. unfold checkBallots. rewrite bind_run, Hsuper, bind_get.
  destruct (_nodes this1 !! candidate) as [node|]; [|done].
  case_bool_decide; [|done].
  unfold rescued. by destruct (Node.disconnected node).
Qed.

(** C7. Once the inherited check has returned, [checkBallots] returns
    normally exactly when the candidate is still a key of the node map;
    when it is not, reading [source] of the missing entry raises a
    [TypeError]. *)
Theorem checkBallots_safe_iff_registered (superCheckBallots : string → M unit)
    (candidate : string) (this this1 : ClusterService) :
  superCheckBallots candidate this = Ok (tt, this1) →
  ((∃ this2, checkBallots superCheckBallots candidate this = Ok (tt, this2))
   ↔ candidate ∈ dom (_nodes this1))
  ∧ (candidate ∉ dom (_nodes this1) →
     ∃ what, checkBallots superCheckBallots candidate this = Throw (TypeError what)).
Proof.
  intros Hsuper. rewrite (checkBallots_run _ _ _ _ Hsuper), elem_of_dom.
  destruct (_nodes this1 !! candidate) as [node|] eqn:Hnode.
  - split; [|by intros []].
    split; [by eauto|]. intros _. case_bool_decide; eauto.
  - split; [|by eauto]. split; [by intros [? ?]|by intros [? ?]].
Qed.

Lemma checkBallots_inv (superCheckBallots : string → M unit) (candidate : string)
    (this this2 : ClusterService) :
  checkBallots superCheckBallots candidate this = Ok (tt, this2) →
  ∃ this1 node,
    superCheckBallots candidate this = Ok (tt, this1)
    ∧ _nodes this1 !! candidate = Some node
    ∧ (configured_peer this1 node ∧ this2 = rescued candidate node this1
       ∨ ¬ configured_peer this1 node ∧ this2 = this1).
Proof.
  intros Hrun.
  destruct (superCheckBallots candidate this) as [[[] this1]|e] eqn:Hsuper.
  - rewrite (checkBallots_run _ _ _ _ Hsuper) in Hrun.
    destruct (_nodes this1 !! candidate) as [node|] eqn:Hnode; [|done].
    exists this1, node. split; [done|]. split; [done|].
    unfold configured_peer. case_bool_decide; simplify_eq; [by left|by right].
  - unfold checkBallots in Hrun. by rewrite bind_run, Hsuper in Hrun.
Qed.

Lemma rescued_config (candidate : string) (node : Node.t) (this : ClusterService) :
  config (rescued candidate node this) = config this.
Proof. unfold rescued. by destruct (Node.disconnected node). Qed.

Lemma rescued_nodes (candidate : string) (node : Node.t) (this : ClusterService) :
  _nodes (rescued candidate node this)
  = <[candidate := Node.delete_disconnected node]> (_nodes this).
Proof. unfold rescued. by destruct (Node.disconnected node). Qed.

Lemma rescued_timeouts (candidate : string) (node : Node.t) (this : ClusterService) :
  timeouts (rescued candidate node this)
  = match Node.disconnected node with
    | Some h => delete h (timeouts this)
    | None => timeouts this
    end.
Proof. unfold rescued. by destruct (Node.disconnected node). Qed.

Lemma rescued_timeouts_Some (candidate : string) (node : Node.t) (this : ClusterService)
    (h : Timeout) (k : string) :
  timeouts (rescued candidate node this) !! h = Some k →
  timeouts this !! h = Some k ∧ Node.disconnected node ≠ Some h.
Proof.
  rewrite rescued_timeouts. destruct (Node.disconnected node) as [h0|]; [|done].
  rewrite lookup_delete_Some. intros [Hne ?]. split; [done|]. congruence.
Qed.

Lemma fireTimeout_config (h : Timeout) (this : ClusterService) :
  config (fireTimeout h this) = config this.
Proof.
  unfold fireTimeout. destruct (timeouts this !! h); [|done]. simpl.
  destruct (_nodes this !! _); [|done]. by case_bool_decide.
Qed.

Lemma fireTimeout_timeouts_Some (h h' : Timeout) (k : string) (this : ClusterService) :
  timeouts (fireTimeout h this) !! h' = Some k → timeouts this !! h' = Some k.
Proof.
  unfold fireTimeout. destruct (timeouts this !! h); [|done]. simpl.
  destruct (_nodes this !! _); [case_bool_decide|]; simpl;
    by intros [_ ?]%lookup_delete_Some.
Qed.

Lemma fireTimeout_nodes_Some (h : Timeout) (k : string) (node : Node.t)
    (this : ClusterService) :
  _nodes (fireTimeout h this) !! k = Some node → _nodes this !! k = Some node.
Proof.
  unfold fireTimeout. destruct (timeouts this !! h); [|done]. simpl.
  destruct (_nodes this !! _); [case_bool_decide|]; simpl; [|done..].
  by intros [_ ?]%lookup_delete_Some.
Qed.

Lemma fireTimeout_keeps (h : Timeout) (c : string) (node : Node.t) (this : ClusterService) :
  configured_peers_spared this →
  _nodes this !! c = Some node → configured_peer this node →
  _nodes (fireTimeout h this) !! c = Some node.
Proof.
  intros Hspared Hnode Hpeer. unfold fireTimeout.
  destruct (timeouts this !! h) as [k|] eqn:Hh; [|done]. simpl.
  destruct (_nodes this !! k) as [nk|] eqn:Hk; [|done].
  case_bool_decide; [|done]. simpl.
  rewrite lookup_delete_ne; [done|].
  intros ->. simplify_eq. by eapply Hspared.
Qed.

Lemma fireTimeout_spared (h : Timeout) (this : ClusterService) :
  configured_peers_spared this → configured_peers_spared (fireTimeout h this).
Proof.
  intros Hspared h' k node Hh' Hk. unfold configured_peer.
  rewrite fireTimeout_config.
  eapply Hspared; eauto using fireTimeout_timeouts_Some, fireTimeout_nodes_Some.
Qed.

Section EngineProperties.
Variable superCheckBallots : string → M unit.
Hypothesis inherited_ok : inherited_ballots_ok superCheckBallots.

Lemma checkBallots_spared (candidate : string) (this this2 : ClusterService) :
  checkBallots superCheckBallots candidate this = Ok (tt, this2) →
  configured_peers_spared this → configured_peers_spared this2.
Proof.
  intros (this1 & node & Hsuper & Hnode & Hcase)%checkBallots_inv Hspared.
  destruct (inherited_ok _ _ _ Hsuper) as (Hcfg & Hsrc & Harmed).
  assert (∀ h k nk, timeouts this1 !! h = Some k → _nodes this1 !! k = Some nk →
            configured_peer this1 nk → k = candidate ∧ Node.disconnected node = Some h)
    as Honly.
  { intros h k nk Hh Hk Hpeer.
    destruct (Harmed _ _ Hh) as [Hold|(-> & n' & Hn' & Hd)]; [|by simplify_eq].
    exfalso. specialize (Hsrc k). rewrite Hk in Hsrc.
    destruct (_nodes this !! k) as [n0|] eqn:Hn0; [|done].
    eapply (Hspared h k n0); [done..|].
    unfold configured_peer in *. simpl in Hsrc. congruence. }
  intros h k nk Hh Hk Hpeer.
  destruct Hcase as [[Hc ->]|[Hc ->]].
  - apply rescued_timeouts_Some in Hh as [Hh Hne].
    unfold configured_peer in Hpeer. rewrite rescued_config in Hpeer.
    rewrite rescued_nodes in Hk.
    destruct (decide (k = candidate)) as [->|Hkc].
    + destruct (Honly h candidate node Hh Hnode Hc) as [_ ?]. done.
    + rewrite lookup_insert_ne in Hk by done.
      destruct (Honly h k nk Hh Hk Hpeer) as [? _]. done.
  - destruct (Honly h k nk Hh Hk Hpeer) as [-> _]. by simplify_eq.
Qed.

Lemma checkBallots_keeps (candidate c : string) (node : Node.t) (this this2 : ClusterService) :
  checkBallots superCheckBallots candidate this = Ok (tt, this2) →
  _nodes this !! c = Some node →
  config this2 = config this
  ∧ ∃ node2, _nodes this2 !! c = Some node2 ∧ Node.source node2 = Node.source node.
Proof.
  intros (this1 & nc & Hsuper & Hnc & Hcase)%checkBallots_inv Hnode.
  destruct (inherited_ok _ _ _ Hsuper) as (Hcfg & Hsrc & _).
  specialize (Hsrc c). rewrite Hnode in Hsrc.
  destruct (_nodes this1 !! c) as [n1|] eqn:Hn1; [|done].
  injection Hsrc as Hsrc.
  destruct Hcase as [[_ ->]|[_ ->]]; [|by eauto].
  rewrite rescued_config, rescued_nodes. split; [done|].
  destruct (decide (c = candidate)) as [->|Hne].
  - rewrite lookup_insert_eq. simplify_eq. by eexists.
  - rewrite lookup_insert_ne by done. by eauto.
Qed.

Lemma engine_steps_keep (c : string) (this this' : ClusterService) :
  rtc (engine_step superCheckBallots) this this' →
  configured_peers_spared this →
  ∀ node, _nodes this !! c = Some node → configured_peer this node →
  configured_peers_spared this'
  ∧ ∃ node', _nodes this' !! c = Some node' ∧ configured_peer this' node'
             ∧ Node.source node' = Node.source node.
Proof.
  induction 1 as [this|this mid this' Hstep _ IH]; intros Hspared node Hnode Hpeer.
  - by eauto.
  - destruct Hstep as [h this|candidate this mid Hrun].
    + destruct (IH (fireTimeout_spared h this Hspared) node) as (? & node' & ? & ? & ?).
      * by apply fireTimeout_keeps.
      * unfold configured_peer. by rewrite fireTimeout_config.
      * by eauto.
    + destruct (checkBallots_keeps _ _ _ _ _ Hrun Hnode) as (Hcfg & node2 & Hn2 & Hsrc).
      destruct (IH (checkBallots_spared _ _ _ Hrun Hspared) node2 Hn2)
        as (? & node' & ? & ? & Hsrc').
      * unfold configured_peer in *. by rewrite Hcfg, Hsrc.
      * split; [done|]. exists node'. by rewrite Hsrc', Hsrc.
Qed.
End EngineProperties.

Lemma upsert_refreshes (nodeId source : string) (weight : Z) (node : Node.t)
    (this : ClusterService) :
  _nodes this !! nodeId = Some node →
  ∃ this', upsert nodeId source weight this = Ok (tt, this')
    ∧ _nodes this' !! nodeId
      = Some (Node.mk (Node.id node) source weight "active"%string None).
Proof.
  intros Hnode. unfold upsert. rewrite bind_get, Hnode.
  destruct (Node.disconnected node); eexists; (split; [reflexivity|]);
    simpl; apply lookup_insert_eq.
Qed.

(** C3. When the candidate's source is a configured peer address, the
    ballot check cancels the candidate's pending removal timeout and
    forgets its handle.  Provided the inherited check arms no other
    timeout and drops no node, no pending timeout concerns the candidate
    afterwards, so whatever timeouts fire and whatever ballots are checked
    from then on, the candidate stays in the node map, and the next message
    from it refreshes that entry to ['active']. *)
Theorem checkBallots_saves_configured_peer (superCheckBallots : string → M unit)
    (candidate : string) (this this1 : ClusterService) (node : Node.t) :
  inherited_ballots_ok superCheckBallots →
  configured_peers_spared this →
  superCheckBallots candidate this = Ok (tt, this1) →
  _nodes this1 !! candidate = Some node →
  configured_peer this1 node →
  ∃ this2,
    checkBallots superCheckBallots candidate this = Ok (tt, this2)
    ∧ _nodes this2 !! candidate = Some (Node.delete_disconnected node)
    ∧ (∀ h, Node.disconnected node = Some h → timeouts this2 !! h = None)
    ∧ (∀ h, timeouts this2 !! h ≠ Some candidate)
    ∧ ∀ this3, rtc (engine_step superCheckBallots) this2 this3 →
        ∃ node3,
          _nodes this3 !! candidate = Some node3
          ∧ Node.source node3 = Node.source node
          ∧ ∀ source weight, ∃ this4,
              upsert candidate source weight this3 = Ok (tt, this4)
              ∧ _nodes this4 !! candidate
                = Some (Node.mk (Node.id node3) source weight "active"%string None).
Proof.
  intros Hok Hspared Hsuper Hnode Hpeer.
  pose proof (checkBallots_run _ _ _ _ Hsuper) as Hrun.
  rewrite Hnode, bool_decide_eq_true_2 in Hrun by done.
  exists (rescued candidate node this1).
  assert (_nodes (rescued candidate node this1) !! candidate
          = Some (Node.delete_disconnected node)) as Hnode2.
  { rewrite rescued_nodes. apply lookup_insert_eq. }
  assert (configured_peer (rescued candidate node this1) (Node.delete_disconnected node))
    as Hpeer2.
  { unfold configured_peer. by rewrite rescued_config. }
  pose proof (checkBallots_spared _ Hok _ _ _ Hrun Hspared) as Hspared2.
  split; [done|]. split; [done|]. split; [|split].
  - intros h Hh. rewrite rescued_timeouts, Hh. apply lookup_delete_eq.
  - intros h Hh. by eapply Hspared2.
  - intros this3 Hsteps.
    destruct (engine_steps_keep _ Hok candidate _ _ Hsteps Hspared2 _ Hnode2 Hpeer2)
      as (_ & node3 & Hnode3 & _ & Hsrc).
    exists node3. split; [done|]. split; [done|].
    intros source weight. by apply upsert_refreshes.
Qed.

(** ** The sample engine *)

Lemma votedOut_run (candidate : string) (node : Node.t) (this : ClusterService) :
  _nodes this !! candidate = Some node →
  ∃ handle pending,
    votedOut candidate this
    = Ok (tt, with_nodes
                (<[candidate := Node.mk (Node.id node) (Node.source node) (Node.weight node)
                                  "removed"%string (Some handle)]> (_nodes this))
                (with_timeouts (<[handle := candidate]> pending) this))
    ∧ ∀ h k, pending !! h = Some k → timeouts this !! h = Some k.
Proof.
  intros Hnode. unfold votedOut. rewrite bind_get, Hnode.
  destruct (Node.disconnected node) as [h0|]; eexists _, _; (split; [reflexivity|]).
  - simpl. by intros h k [_ ?]%lookup_delete_Some.
  - done.
Qed.

Lemma votedOut_ok : inherited_ballots_ok votedOut.
Proof.
  intros candidate this this' Hrun.
  destruct (_nodes this !! candidate) as [node|] eqn:Hnode.
  - destruct (votedOut_run candidate node this Hnode) as (handle & pending & Hrun' & Hold).
    rewrite Hrun' in Hrun. injection Hrun as <-. simpl.
    split; [done|]. split.
    + intros k. destruct (decide (k = candidate)) as [->|Hne].
      * by rewrite lookup_insert_eq, Hnode.
      * by rewrite lookup_insert_ne.
    + intros h k [[-> ->]|[_ Hh]]%lookup_insert_Some.
      * right. split; [done|]. eexists. by rewrite lookup_insert_eq.
      * left. by apply Hold.
  - unfold votedOut in Hrun. by rewrite bind_get, Hnode in Hrun.
Qed.

Lemma sample_spared : configured_peers_spared sample.
Proof.
  intros h k node Hh. change (timeouts sample) with (∅ : gmap Timeout string) in Hh.
  by rewrite lookup_empty in Hh.
Qed.

(** ** Witnesses on the sample cluster *)

Lemma quorumReached_spec_witness :
  ∃ b : bool,
    quorumReached sample_nodes sample = Ok (b, sample)
    ∧ (b = true ↔ 2%Z = 0%Z ∨ (2 ≤ Z.of_nat (activeCount (sample_nodes sample)))%Z).
Proof. exact (quorumReached_spec sample_nodes sample 2%Z eq_refl). Defined.

Lemma checkBallots_safe_iff_registered_witness :
  ((∃ this2, checkBallots votedOut "hallway-b2" sample = Ok (tt, this2))
   ↔ "hallway-b2"%string ∈ dom (_nodes sample_after_vote))
  ∧ ("hallway-b2"%string ∉ dom (_nodes sample_after_vote) →
     ∃ what, checkBallots votedOut "hallway-b2" sample = Throw (TypeError what)).
Proof.
  apply (checkBallots_safe_iff_registered votedOut "hallway-b2" sample sample_after_vote).
  vm_compute. reflexivity.
Defined.

Lemma checkBallots_saves_configured_peer_witness :
  ∃ this2,
    checkBallots votedOut "kitchen-a1" sample = Ok (tt, this2)
    ∧ _nodes this2 !! "kitchen-a1"%string
      = Some (Node.mk "kitchen-a1" "192.168.1.11:6425" 1 "removed" None)
    ∧ (∀ h, Some 1%positive = Some h → timeouts this2 !! h = None)
    ∧ (∀ h, timeouts this2 !! h ≠ Some "kitchen-a1"%string)
    ∧ ∀ this3, rtc (engine_step votedOut) this2 this3 →
        ∃ node3,
          _nodes this3 !! "kitchen-a1"%string = Some node3
          ∧ Node.source node3 = "192.168.1.11:6425"%string
          ∧ ∀ source weight, ∃ this4,
              upsert "kitchen-a1" source weight this3 = Ok (tt, this4)
              ∧ _nodes this4 !! "kitchen-a1"%string
                = Some (Node.mk (Node.id node3) source weight "active"%string None).
Proof.
  apply (checkBallots_saves_configured_peer votedOut "kitchen-a1" sample
           (with_nodes
              (<["kitchen-a1"%string :=
                   Node.mk "kitchen-a1" "192.168.1.11:6425" 1 "removed" (Some 1%positive)]>
                 (_nodes sample))
              (with_timeouts (<[1%positive := "kitchen-a1"%string]> ∅) sample))
           (Node.mk "kitchen-a1" "192.168.1.11:6425" 1 "removed" (Some 1%positive))).
  - exact votedOut_ok.
  - exact sample_spared.
  - vm_compute. reflexivity.
  - vm_compute. reflexivity.
  - unfold configured_peer. simpl. left.
Defined.

(** ** Discovery *)

Lemma existsb_own_address (this : ClusterService) (addresses : list string) :
  existsb (λ address,
    bool_decide (address ∈ NetworkInterfaceInfo.address <$> networkInterfaces this))
    addresses = true
  ↔ ∃ address, address ∈ addresses ∧ own_address this address.
Proof.
  rewrite existsb_exists. unfold own_address.
  split; intros (address & Hin & Hown); exists address.
  - apply list_elem_of_In in Hin. by apply bool_decide_eq_true in Hown.
  - apply list_elem_of_In in Hin. by rewrite bool_decide_eq_true.
Qed.

Lemma existsb_known_peer (this : ClusterService) (addresses : list string) (port : N) :
  existsb (λ peer,
    existsb (λ address,
      strict_eq (at_index peer 0) (JStr address)
      && strict_eq (at_index peer 1) (JStr (toString port))) addresses)
    (Options.peers (options this)) = true
  ↔ ∃ address, address ∈ addresses ∧ known_peer this address port.
Proof.
  rewrite existsb_exists. unfold known_peer, strict_eq. split.
  - intros (peer & Hpeer & (address & Hin & Heq)%existsb_exists).
    apply andb_true_iff in Heq as [H0%bool_decide_eq_true H1%bool_decide_eq_true].
    apply list_elem_of_In in Hpeer, Hin. eauto 6.
  - intros (address & Hin & peer & Hpeer & H0 & H1).
    exists peer. rewrite existsb_exists. rewrite <- list_elem_of_In.
    split; [done|]. exists address. rewrite <- list_elem_of_In.
    split; [done|]. by rewrite andb_true_iff, !bool_decide_eq_true.
Qed.

(** C6, as stated, fails: of a service with two addresses, neither the
    instance's own nor known, only the first is added to the peer list. *)
Lemma handleNodeDiscovery_skips_further_addresses :
  ¬ every_new_address_added sample two_address_service.
Proof.
  intros Hall.
  destruct (Hall "192.168.1.21"%string) as (this' & Hrun & Hknown & _).
  - right. left.
  - unfold own_address. vm_compute. intros Hin.
    repeat (apply elem_of_cons in Hin as [Heq|Hin]; [discriminate Heq|]).
    by apply elem_of_nil in Hin.
  - intros (peer & Hin & H0 & _). vm_compute in Hin.
    apply elem_of_cons in Hin as [->|Hin]; [discriminate H0|].
    by apply elem_of_nil in Hin.
  - vm_compute in Hrun. injection Hrun as <-.
    destruct Hknown as (peer & Hin & H0 & _). vm_compute in Hin.
    repeat (apply elem_of_cons in Hin as [->|Hin]; [discriminate H0|]).
    by apply elem_of_nil in Hin.
Qed.

(** C6, amended. A discovered service is handled as a whole.  It is
    ignored, with no change to the peer list and no hello, when any of its
    addresses is one of the instance's own interface addresses or is in
    the peer list with the service's port.  Otherwise one entry, the
    service's first address with its port, is appended to the peer list
    and one hello is sent. *)
Theorem handleNodeDiscovery_spec (this : ClusterService) (service : Service.t) :
  let port := Service.port service in
  ((∃ address, address ∈ Service.addresses service
               ∧ (own_address this address ∨ known_peer this address port)) →
   handleNodeDiscovery service this = Ok (tt, this))
  ∧ (∀ first others,
       Service.addresses service = first :: others →
       (∀ address, address ∈ Service.addresses service →
          ¬ own_address this address ∧ ¬ known_peer this address port) →
       handleNodeDiscovery service this
       = Ok (tt, with_outbox (outbox this ++ [("hello"%string, NoPayload)])
                   (with_peers (Options.peers (options this)
                                ++ [[JStr first; JStr (toString port)]]) this))).
Proof.
  intros port. unfold handleNodeDiscovery. rewrite bind_get. split.
  - intros (address & Hin & [Hown|Hknown]).
    + assert (existsb _ (Service.addresses service) = true) as ->
        by (apply existsb_own_address; eauto).
      done.
    + assert (existsb _ (Options.peers (options this)) = true) as ->
        by (apply (existsb_known_peer this _ port); eauto).
      by rewrite orb_true_r.
  - intros first others Haddr Hnew.
    destruct (existsb _ (Service.addresses service)) eqn:Hown.
    { apply existsb_own_address in Hown as (address & Hin & Hown).
      by destruct (Hnew address Hin). }
    destruct (existsb _ (Options.peers (options this))) eqn:Hknown.
    { apply (existsb_known_peer this _ port) in Hknown as (address & Hin & Hknown).
      by destruct (Hnew address Hin). }
    rewrite Haddr. reflexivity.
Qed.

Lemma handleNodeDiscovery_spec_witness :
  handleNodeDiscovery known_service sample = Ok (tt, sample)
  ∧ handleNodeDiscovery two_address_service sample
    = Ok (tt, with_outbox (outbox sample ++ [("hello"%string, NoPayload)])
                (with_peers (Options.peers (options sample)
                             ++ [[JStr "192.168.1.20"; JStr (toString 6425)]]) sample)).
Proof.
  split.
  - apply (proj1 (handleNodeDiscovery_spec sample known_service)).
    exists "192.168.1.11"%string. split; [left|]. right.
    exists [JStr "192.168.1.11"; JStr "6425"]. split; [left|]. split; reflexivity.
  - apply (proj2 (handleNodeDiscovery_spec sample two_address_service)
             "192.168.1.20"%string ["192.168.1.21"%string] eq_refl).
    intros address Hin. split.
    + unfold own_address. vm_compute. intros Hown.
      vm_compute in Hin.
      repeat (apply elem_of_cons in Hin as [->|Hin];
        [repeat (apply elem_of_cons in Hown as [Heq|Hown]; [discriminate Heq|]);
         by apply elem_of_nil in Hown|]).
      by apply elem_of_nil in Hin.
    + intros (peer & Hpeer & H0 & _). vm_compute in Hpeer, Hin.
      apply elem_of_cons in Hpeer as [->|Hpeer]; [|by apply elem_of_nil in Hpeer].
      repeat (apply elem_of_cons in Hin as [->|Hin]; [discriminate H0|]).
      by apply elem_of_nil in Hin.
Defined.

(** ** Construction and the lifecycle hooks *)

Lemma find_external_IPv4_None (interfaces : list NetworkInterfaceInfo.t) :
  List.find external_IPv4 interfaces = None
  ↔ ¬ ∃ info, info ∈ interfaces
              ∧ NetworkInterfaceInfo.internal info = false
              ∧ NetworkInterfaceInfo.family info = "IPv4"%string.
Proof.
  split.
  - intros Hnone (info & Hin & Hint & Hfam).
    apply list_elem_of_In in Hin.
    pose proof (find_none _ _ Hnone info Hin) as Hno.
    unfold external_IPv4 in Hno.
    by rewrite !bool_decide_eq_true_2 in Hno.
  - intros Hno. destruct (List.find external_IPv4 interfaces) as [info|] eqn:Hfind; [|done].
    apply find_some in Hfind as [Hin Hext]. exfalso. apply Hno. exists info.
    apply list_elem_of_In in Hin. unfold external_IPv4 in Hext.
    apply andb_true_iff in Hext as [?%bool_decide_eq_true ?%bool_decide_eq_true]. done.
Qed.

Lemma broadcastPeers_run (this : ClusterService) :
  broadcastPeers this
  = Ok (tt, with_outbox
              (outbox this ++ [("peers"%string, PeersPayload (Options.peers (options this)))])
              this).
Proof. reflexivity. Qed.





(** C9. With [autoDiscovery] set and the [mdns] module missing, bootstrap
    returns normally: it logs one warning, creates no advertisement and no
    browser, and broadcasts the peer list. *)
Theorem onApplicationBootstrap_without_mdns (this : ClusterService) :
  ClusterConfig.autoDiscovery (config this) = true →
  ∃ this' message,
    onApplicationBootstrap None this = Ok (tt, this')
    ∧ log this' = log this ++ [(LogWarn, message)]
    ∧ advertisement this' = advertisement this
    ∧ browser this' = browser this
    ∧ outbox this'
      = outbox this ++ [("peers"%string, PeersPayload (Options.peers (options this)))]
    ∧ options this' = options this.
Proof.
  intros Hauto. unfold onApplicationBootstrap. rewrite bind_get, Hauto.
  eexists _, _. split; [reflexivity|]. done.
Qed.

Lemma onApplicationBootstrap_without_mdns_witness :
  ∃ this' message,
    onApplicationBootstrap None sample = Ok (tt, this')
    ∧ log this' = log sample ++ [(LogWarn, message)]
    ∧ advertisement this' = advertisement sample
    ∧ browser this' = browser sample
    ∧ outbox this'
      = outbox sample ++ [("peers"%string, PeersPayload (Options.peers (options sample)))]
    ∧ options this' = options sample.
Proof. exact (onApplicationBootstrap_without_mdns sample eq_refl). Defined.

(** C10, as stated, fails: after the shutdown hook a removal timeout armed
    before it is still pending, and a later broadcast still sends. *)
Lemma onApplicationShutdown_leaves_timeouts :
  ¬ shutdown_quiesces sample_after_vote.
Proof.
  intros (this' & Hrun & _ & _ & Hempty & _).
  vm_compute in Hrun. injection Hrun as <-.
  apply (f_equal (λ m : gmap Timeout string, m !! 1%positive)) in Hempty.
  vm_compute in Hempty. discriminate Hempty.
Qed.

(** C10, amended. The shutdown hook stops the discovery advertisement and
    the browser when they exist, and touches nothing else: pending
    timeouts, nodes, peers, listeners, outbox and log are as before. *)
Theorem onApplicationShutdown_spec (this : ClusterService) :
  ∃ this',
    onApplicationShutdown this = Ok (tt, this')
    ∧ advertisement this' = Advertisement.stop <$> advertisement this
    ∧ browser this' = Browser.stop <$> browser this
    ∧ Advertisement.running <$> advertisement this' ≠ Some true
    ∧ Browser.running <$> browser this' ≠ Some true
    ∧ timeouts this' = timeouts this
    ∧ _nodes this' = _nodes this
    ∧ options this' = options this
    ∧ listeners this' = listeners this
    ∧ outbox this' = outbox this
    ∧ log this' = log this
    ∧ config this' = config this.
Proof.
  eexists. split; [reflexivity|]. simpl.
  split; [done|]. split; [done|].
  split; [by destruct (advertisement this)|].
  split; [by destruct (browser this)|]. done.
Qed.

(** ** The sample cluster, run *)

Example quorumReached_sample : quorumReached sample_nodes sample = Ok (true, sample).
Proof. vm_compute. reflexivity. Qed.

Example quorumReached_after_vote :
  quorumReached _nodes sample_after_vote = Ok (false, sample_after_vote)
  ∧ quorumReached sample_nodes sample_after_vote = Ok (true, sample_after_vote).
Proof. split; vm_compute; reflexivity. Qed.

Example isMajorityLeader_without_quorum :
  isMajorityLeader _nodes (λ _, true) sample_after_vote = Ok (false, sample_after_vote).
Proof. vm_compute. reflexivity. Qed.

Example addMissingPeers_sample :
  Options.peers (options
    match addMissingPeers
            [[JStr "192.168.1.12"; JStr "6425"]; [JStr "192.168.1.11"; JStr "6425"];
             [JStr "192.168.1.12"; JStr "6425"]] sample with
    | Ok (_, this) => this
    | Throw _ => sample
    end)
  = [[JStr "192.168.1.11"; JStr "6425"]; [JStr "192.168.1.12"; JStr "6425"]].
Proof. vm_compute. reflexivity. Qed.

Example checkBallots_unregistered_candidate :
  checkBallots (λ _, mret tt) "attic-c3" sample
  = Throw (TypeError "Cannot read property 'source' of undefined").
Proof. vm_compute. reflexivity. Qed.

Example constructor_sample :
  options_source_of_sample = "192.168.1.10:6425"%string.
Proof. vm_compute. reflexivity. Qed.

Example constructor_loopback_only :
  constructor (λ name, name) (λ _, sample) sample_config "kitchen"
    [("lo"%string, [NetworkInterfaceInfo.mk "127.0.0.1" "IPv4" true])]
  = Throw (TypeError "Cannot read property 'address' of undefined").
Proof. vm_compute. reflexivity. Qed.

(** * Further properties of the service *)

(** ** Quorum *)

Lemma activeCount_le_size (ns : gmap string Node.t) :
  activeCount ns ≤ size ns.
Proof. apply map_subseteq_size, map_filter_subseteq. Qed.

Lemma activeCount_states (ns1 ns2 : gmap string Node.t) :
  (∀ k, Node.state <$> ns1 !! k = Node.state <$> ns2 !! k) →
  activeCount ns1 = activeCount ns2.
Proof.
  intros Hstates. unfold activeCount. rewrite <- !size_dom. f_equal.
  apply set_eq. intros k. rewrite !elem_of_dom. unfold is_Some.
  assert (∀ m1 m2 : gmap string Node.t,
            (∀ k, Node.state <$> m1 !! k = Node.state <$> m2 !! k) →
            (∃ x, filter (λ kv : string * Node.t, Node.state kv.2 ≠ "removed"%string) m1
                  !! k = Some x) →
            ∃ x, filter (λ kv : string * Node.t, Node.state kv.2 ≠ "removed"%string) m2
                 !! k = Some x) as Hone.
  { intros m1 m2 H12 [x [Hx Hstate]%map_lookup_filter_Some].
    specialize (H12 k). rewrite Hx in H12. simpl in *.
    destruct (m2 !! k) as [y|] eqn:Hy; [|done]. injection H12 as H12.
    exists y. apply map_lookup_filter_Some. split; [done|]. simpl. congruence. }
  split; apply Hone; [done|]. intros k'. by rewrite Hstates.
Qed.

(** X1. When the configuration has no quorum threshold, or has 0,
    [quorumReached()] answers [true] whatever the node map holds, and
    [isMajorityLeader()] answers what [isLeader()] does. *)
Theorem quorumReached_without_threshold (nodes : ClusterService → gmap string Node.t)
    (isLeader : ClusterService → bool) (this : ClusterService) :
  ClusterConfig.quorum (config this) = None ∨ ClusterConfig.quorum (config this) = Some 0%Z →
  quorumReached nodes this = Ok (true, this)
  ∧ isMajorityLeader nodes isLeader this = Ok (isLeader this, this).
Proof.
  intros Hq.
  assert (quorumReached nodes this = Ok (true, this)) as Hrun.
  { rewrite quorumReached_run. by destruct Hq as [-> | ->]. }
  split; [done|].
  unfold isMajorityLeader. rewrite bind_get.
  by destruct (isLeader this).
Qed.

Lemma quorumReached_without_threshold_witness :
  quorumReached sample_nodes sample_without_quorum = Ok (true, sample_without_quorum)
  ∧ isMajorityLeader sample_nodes (λ _, false) sample_without_quorum
    = Ok (false, sample_without_quorum).
Proof.
  apply (quorumReached_without_threshold sample_nodes (λ _, false) sample_without_quorum).
  left. reflexivity.
Defined.

(** X2. A threshold above the number of nodes that [nodes()] reports
    cannot be met: [quorumReached()] answers [false], whatever the nodes'
    states. *)
Theorem quorumReached_needs_enough_nodes (nodes : ClusterService → gmap string Node.t)
    (this : ClusterService) (q : Z) :
  ClusterConfig.quorum (config this) = Some q →
  (Z.of_nat (size (nodes this)) < q)%Z →
  quorumReached nodes this = Ok (false, this).
Proof.
  intros Hq Hsize. rewrite quorumReached_run, Hq.
  pose proof (activeCount_le_size (nodes this)).
  unfold truthy_number.
  assert ((q =? 0)%Z = false) as -> by (apply Z.eqb_neq; lia).
  simpl. by rewrite bool_decide_eq_false_2 by lia.
Qed.

Lemma quorumReached_needs_enough_nodes_witness :
  quorumReached sample_nodes sample_strict_quorum = Ok (false, sample_strict_quorum).
Proof.
  apply (quorumReached_needs_enough_nodes sample_nodes sample_strict_quorum 4%Z).
  - reflexivity.
  - vm_compute. reflexivity.
Defined.

Lemma activeCount_insert_removed (ns : gmap string Node.t) (k : string) (node : Node.t) :
  Node.state node = "removed"%string →
  activeCount (<[k := node]> ns) ≤ activeCount ns.
Proof.
  intros Hstate. unfold activeCount.
  rewrite map_filter_insert_False by (simpl; intros Hne; by apply Hne).
  rewrite map_filter_delete. apply map_subseteq_size, delete_subseteq.
Qed.

(** X3. Registering a node in state ['removed'], or replacing a node's
    entry by one in that state, never makes the quorum reached: if the
    node map that [nodes()] reports differs by such an entry and
    [quorumReached()] answers [true] afterwards, it did before. *)
Theorem quorumReached_not_gained_by_removal (nodes : ClusterService → gmap string Node.t)
    (this this' : ClusterService) (k : string) (node : Node.t) :
  Node.state node = "removed"%string →
  config this' = config this →
  nodes this' = <[k := node]> (nodes this) →
  ∃ before after : bool,
    quorumReached nodes this = Ok (before, this)
    ∧ quorumReached nodes this' = Ok (after, this')
    ∧ (after = true → before = true).
Proof.
  intros Hstate Hcfg Hnodes. rewrite !quorumReached_run, Hcfg, Hnodes. eexists _, _.
  split; [reflexivity|]. split; [reflexivity|].
  pose proof (activeCount_insert_removed (nodes this) k node Hstate) as Hle.
  destruct (ClusterConfig.quorum (config this)) as [q|]; [|done]. simpl.
  rewrite !orb_true_iff, !bool_decide_eq_true. intros [?|?]; [by left|right; lia].
Qed.

Lemma quorumReached_not_gained_by_removal_witness :
  ∃ before after : bool,
    quorumReached sample_nodes sample = Ok (before, sample)
    ∧ quorumReached sample_nodes
        (with_nodes
           (<["hallway-b2"%string :=
                Node.mk "hallway-b2" "192.168.1.12:6425" 1 "removed" None]> (_nodes sample))
           sample)
      = Ok (after,
            with_nodes
              (<["hallway-b2"%string :=
                   Node.mk "hallway-b2" "192.168.1.12:6425" 1 "removed" None]> (_nodes sample))
              sample)
    ∧ (after = true → before = true).
Proof.
  apply (quorumReached_not_gained_by_removal sample_nodes sample _ "hallway-b2"
           (Node.mk "hallway-b2" "192.168.1.12:6425" 1 "removed" None)).
  - reflexivity.
  - reflexivity.
  - unfold sample_nodes. simpl. by apply insert_insert_ne.
Defined.

(** ** The ballot check, continued *)

(** X4. For a candidate whose source is not a configured peer address,
    [checkBallots] does nothing beyond the inherited check: the instance
    is the one that check returned, its timeouts still pending. *)
Theorem checkBallots_leaves_other_candidates (superCheckBallots : string → M unit)
    (candidate : string) (this this1 : ClusterService) (node : Node.t) :
  superCheckBallots candidate this = Ok (tt, this1) →
  _nodes this1 !! candidate = Some node →
  ¬ configured_peer this1 node →
  checkBallots superCheckBallots candidate this = Ok (tt, this1).
Proof.
  intros Hsuper Hnode Hpeer.
  rewrite (checkBallots_run _ _ _ _ Hsuper), Hnode.
  by rewrite bool_decide_eq_false_2.
Qed.

Lemma checkBallots_leaves_other_candidates_witness :
  checkBallots votedOut "hallway-b2" sample
  = Ok (tt, with_nodes
              (<["hallway-b2"%string :=
                   Node.mk "hallway-b2" "192.168.1.12:6425" 1 "removed" (Some 1%positive)]>
                 (_nodes sample))
              (with_timeouts (<[1%positive := "hallway-b2"%string]> ∅) sample)).
Proof.
  apply (checkBallots_leaves_other_candidates votedOut "hallway-b2" sample _
           (Node.mk "hallway-b2" "192.168.1.12:6425" 1 "removed" (Some 1%positive))).
  - vm_compute. reflexivity.
  - vm_compute. reflexivity.
  - unfold configured_peer. simpl. intros Hin.
    apply elem_of_cons in Hin as [Heq|Hin]; [discriminate Heq|].
    by apply elem_of_nil in Hin.
Defined.

(** X5. An exception of the inherited check passes through
    [checkBallots] unchanged; the rescue is not attempted. *)
Theorem checkBallots_propagates_throw (superCheckBallots : string → M unit)
    (candidate : string) (this : ClusterService) (e : Error) :
  superCheckBallots candidate this = Throw e →
  checkBallots superCheckBallots candidate this = Throw e.
Proof. intros Hsuper. unfold checkBallots. by rewrite bind_run, Hsuper. Qed.

Lemma checkBallots_propagates_throw_witness :
  checkBallots votedOut "attic-c3" sample
  = Throw (TypeError "Cannot read property 'state' of undefined").
Proof.
  apply (checkBallots_propagates_throw votedOut "attic-c3" sample).
  vm_compute. reflexivity.
Defined.

(** X6. The rescue of a configured peer changes its entry in nothing but
    the [disconnected] field: id, source, weight and state stay, so a
    rescued node that was ['removed'] still is.  The other nodes, the
    other pending timeouts, the peer list and the outbox are untouched, and
    one debug line is logged.  [quorumReached()] answers as it did after
    the inherited check, for every [nodes()] that reports each node in the
    state it had then. *)
Theorem checkBallots_rescue_frame (nodes : ClusterService → gmap string Node.t)
    (superCheckBallots : string → M unit)
    (candidate : string) (this this1 : ClusterService) (node : Node.t) :
  superCheckBallots candidate this = Ok (tt, this1) →
  _nodes this1 !! candidate = Some node →
  configured_peer this1 node →
  ∃ this2 node2 message,
    checkBallots superCheckBallots candidate this = Ok (tt, this2)
    ∧ _nodes this2 !! candidate = Some node2
    ∧ Node.id node2 = Node.id node
    ∧ Node.source node2 = Node.source node
    ∧ Node.weight node2 = Node.weight node
    ∧ Node.state node2 = Node.state node
    ∧ (∀ k, k ≠ candidate → _nodes this2 !! k = _nodes this1 !! k)
    ∧ (∀ h, Node.disconnected node ≠ Some h → timeouts this2 !! h = timeouts this1 !! h)
    ∧ options this2 = options this1
    ∧ outbox this2 = outbox this1
    ∧ log this2 = log this1 ++ [(LogDebug, message)]
    ∧ (∀ k, Node.state <$> _nodes this2 !! k = Node.state <$> _nodes this1 !! k)
    ∧ ((∀ k, Node.state <$> nodes this2 !! k = Node.state <$> nodes this1 !! k) →
       ∃ quorum : bool,
         quorumReached nodes this1 = Ok (quorum, this1)
         ∧ quorumReached nodes this2 = Ok (quorum, this2)).
Proof.
  intros Hsuper Hnode Hpeer.
  pose proof (checkBallots_run _ _ _ _ Hsuper) as Hrun.
  rewrite Hnode, bool_decide_eq_true_2 in Hrun by done.
  eexists (rescued candidate node this1), (Node.delete_disconnected node), _.
  split; [done|].
  split; [rewrite rescued_nodes; apply lookup_insert_eq|].
  do 4 (split; [done|]).
  split; [intros k Hk; rewrite rescued_nodes; by apply lookup_insert_ne|].
  split.
  { intros h Hh. rewrite rescued_timeouts.
    destruct (Node.disconnected node) as [h0|]; [|done].
    apply lookup_delete_ne. congruence. }
  split; [unfold rescued; by destruct (Node.disconnected node)|].
  split; [unfold rescued; by destruct (Node.disconnected node)|].
  split; [unfold rescued; by destruct (Node.disconnected node)|].
  split.
  { intros k. rewrite rescued_nodes.
    destruct (decide (k = candidate)) as [->|Hk].
    - by rewrite lookup_insert_eq, Hnode.
    - by rewrite lookup_insert_ne. }
  intros Hstates. eexists. split; [apply quorumReached_run|].
  rewrite quorumReached_run, rescued_config, (activeCount_states _ _ Hstates).
  reflexivity.
Qed.

Lemma checkBallots_rescue_frame_witness :
  ∃ this2 node2 message,
    checkBallots votedOut "kitchen-a1" sample = Ok (tt, this2)
    ∧ _nodes this2 !! "kitchen-a1"%string = Some node2
    ∧ Node.id node2 = Node.id kitchen_voted
    ∧ Node.source node2 = Node.source kitchen_voted
    ∧ Node.weight node2 = Node.weight kitchen_voted
    ∧ Node.state node2 = Node.state kitchen_voted
    ∧ (∀ k, k ≠ "kitchen-a1"%string →
         _nodes this2 !! k = _nodes sample_kitchen_voted !! k)
    ∧ (∀ h, Node.disconnected kitchen_voted ≠ Some h →
         timeouts this2 !! h = timeouts sample_kitchen_voted !! h)
    ∧ options this2 = options sample_kitchen_voted
    ∧ outbox this2 = outbox sample_kitchen_voted
    ∧ log this2 = log sample_kitchen_voted ++ [(LogDebug, message)]
    ∧ (∀ k, Node.state <$> _nodes this2 !! k
            = Node.state <$> _nodes sample_kitchen_voted !! k)
    ∧ ((∀ k, Node.state <$> sample_nodes this2 !! k
             = Node.state <$> sample_nodes sample_kitchen_voted !! k) →
       ∃ quorum : bool,
         quorumReached sample_nodes sample_kitchen_voted
         = Ok (quorum, sample_kitchen_voted)
         ∧ quorumReached sample_nodes this2 = Ok (quorum, this2)).
Proof.
  apply (checkBallots_rescue_frame sample_nodes votedOut "kitchen-a1" sample
           sample_kitchen_voted kitchen_voted).
  - vm_compute. reflexivity.
  - vm_compute. reflexivity.
  - unfold configured_peer. simpl. left.
Defined.

(** ** Discovery, continued *)

Lemma handleNodeDiscovery_cases (service : Service.t) (this : ClusterService) :
  ((∃ address, address ∈ Service.addresses service
               ∧ (own_address this address ∨ known_peer this address (Service.port service)))
   ∧ handleNodeDiscovery service this = Ok (tt, this))
  ∨ ((∀ address, address ∈ Service.addresses service →
        ¬ own_address this address ∧ ¬ known_peer this address (Service.port service))
     ∧ handleNodeDiscovery service this
       = Ok (tt, with_outbox (outbox this ++ [("hello"%string, NoPayload)])
                   (with_peers
                      (Options.peers (options this)
                       ++ [[ match Service.addresses service with
                             | address :: _ => JStr address
                             | [] => JUndefined
                             end;
                             JStr (toString (Service.port service)) ]]) this))).
Proof.
  unfold handleNodeDiscovery. rewrite bind_get.
  pose proof (existsb_own_address this (Service.addresses service)) as Hown.
  pose proof (existsb_known_peer this (Service.addresses service) (Service.port service))
    as Hknown.
  destruct (existsb _ (Service.addresses service)).
  { left. destruct (proj1 Hown eq_refl) as (address & ? & ?). by eauto 6. }
  destruct (existsb _ (Options.peers (options this))).
  { left. destruct (proj1 Hknown eq_refl) as (address & ? & ?). by eauto 6. }
  right. split; [|reflexivity].
  intros address Hin. split; intros H.
  - assert (false = true) by (apply Hown; eauto). done.
  - assert (false = true) by (apply Hknown; eauto). done.
Qed.

Lemma handleNodeDiscovery_ignored (service : Service.t) (this : ClusterService)
    (address : string) :
  address ∈ Service.addresses service →
  own_address this address ∨ known_peer this address (Service.port service) →
  handleNodeDiscovery service this = Ok (tt, this).
Proof.
  intros Hin Hmatch.
  destruct (handleNodeDiscovery_cases service this) as [[_ Hrun]|[Hnew _]]; [done|].
  destruct (Hnew address Hin) as [Hown Hknown]. by destruct Hmatch.
Qed.

(** X7. Discovering the same service twice is the same as discovering it
    once, provided it carries at least one address: the second call finds
    the first address in the peer list, adds no entry and sends no
    hello. *)
Theorem handleNodeDiscovery_idempotent (service : Service.t) (this : ClusterService)
    (first : string) (others : list string) :
  Service.addresses service = first :: others →
  ∃ this1,
    handleNodeDiscovery service this = Ok (tt, this1)
    ∧ handleNodeDiscovery service this1 = Ok (tt, this1).
Proof.
  intros Haddr.
  destruct (handleNodeDiscovery_cases service this) as [[_ Hrun]|[_ Hrun]].
  - by exists this.
  - eexists. split; [exact Hrun|].
    apply (handleNodeDiscovery_ignored service _ first); [rewrite Haddr; left|].
    right.
    exists [JStr first; JStr (toString (Service.port service))].
    split; [|done]. simpl. rewrite Haddr. apply elem_of_app. right. left.
Qed.

Lemma handleNodeDiscovery_idempotent_witness :
  ∃ this1,
    handleNodeDiscovery two_address_service sample = Ok (tt, this1)
    ∧ handleNodeDiscovery two_address_service this1 = Ok (tt, this1).
Proof.
  exact (handleNodeDiscovery_idempotent two_address_service sample
           "192.168.1.20" ["192.168.1.21"%string] eq_refl).
Defined.

(** X8. A service that carries no address is never ignored: each
    discovery appends an entry whose host is [undefined] and sends a
    hello, so discovering it twice leaves two such entries and two
    hellos. *)
Theorem handleNodeDiscovery_without_address (port : N) (this : ClusterService) :
  let entry := [JUndefined; JStr (toString port)] in
  let hello := ("hello"%string, NoPayload) in
  handleNodeDiscovery (Service.mk [] port) this
  = Ok (tt, with_outbox (outbox this ++ [hello])
              (with_peers (Options.peers (options this) ++ [entry]) this))
  ∧ (handleNodeDiscovery (Service.mk [] port) ;; handleNodeDiscovery (Service.mk [] port)) this
    = Ok (tt, with_outbox (outbox this ++ [hello; hello])
                (with_peers (Options.peers (options this) ++ [entry; entry]) this)).
Proof.
  intros entry hello.
  assert (∀ that, handleNodeDiscovery (Service.mk [] port) that
            = Ok (tt, with_outbox (outbox that ++ [hello])
                        (with_peers (Options.peers (options that) ++ [entry]) that)))
    as Hrun.
  { intros that.
    destruct (handleNodeDiscovery_cases (Service.mk [] port) that)
      as [[(address & Hin & _) _]|[_ Hrun]]; [|exact Hrun].
    by apply elem_of_nil in Hin. }
  split; [apply Hrun|].
  rewrite bind_run, Hrun, Hrun. simpl.
  by rewrite <- !app_assoc.
Qed.

(** X9. Discovery never removes or rewrites a peer entry and appends at
    most one, for every service and every peer list; for a service with
    at least one address, a peer list that was unique by (host, port)
    stays so. *)
Theorem handleNodeDiscovery_keeps_unique (service : Service.t) (this : ClusterService) :
  ∃ this' added,
    handleNodeDiscovery service this = Ok (tt, this')
    ∧ Options.peers (options this') = Options.peers (options this) ++ added
    ∧ length added ≤ 1
    ∧ (∀ first others,
         Service.addresses service = first :: others →
         NoDup (peer_key <$> Options.peers (options this)) →
         NoDup (peer_key <$> Options.peers (options this'))).
Proof.
  destruct (handleNodeDiscovery_cases service this) as [[_ Hrun]|[Hnew Hrun]].
  - exists this, []. rewrite app_nil_r. simpl. split; [done|]. split; [done|].
    split; [lia|done].
  - eexists _, [_]. split; [exact Hrun|]. simpl. split; [done|]. split; [lia|].
    intros first others Haddr Hnd.
    rewrite Haddr, fmap_app. apply NoDup_app. split; [done|]. split.
    + intros k (peer & Hk & Hpeer)%list_elem_of_fmap ->%list_elem_of_singleton.
      destruct (Hnew first) as [_ Hknown]; [rewrite Haddr; left|].
      apply Hknown. exists peer. split; [done|].
      unfold peer_key in Hk. simpl in Hk. by injection Hk as <- <-.
    + apply NoDup_singleton.
Qed.

Lemma handleNodeDiscovery_keeps_unique_witness :
  ∃ this',
    handleNodeDiscovery two_address_service sample = Ok (tt, this')
    ∧ NoDup (peer_key <$> Options.peers (options this')).
Proof.
  destruct (handleNodeDiscovery_keeps_unique two_address_service sample)
    as (this' & added & Hrun & _ & _ & Hunique).
  exists this'. split; [exact Hrun|].
  apply (Hunique "192.168.1.20"%string ["192.168.1.21"%string] eq_refl).
  vm_compute. apply NoDup_singleton.
Defined.

(** ** The lifecycle hooks, continued *)

(** X10. With [autoDiscovery] set and the [mdns] module loaded, bootstrap
    creates and starts an advertisement on the configured port and
    interface and a browser listening for ['serviceUp'] and ['error'],
    whose resolver sequence uses [DNSServiceGetAddrInfo] where the module
    offers it and [getaddrinfo] for any family otherwise; it then
    broadcasts the peer list, which it leaves unchanged. *)
Theorem onApplicationBootstrap_starts_discovery (m : Mdns.t) (this : ClusterService) :
  ClusterConfig.autoDiscovery (config this) = true →
  ∃ this' adv br,
    onApplicationBootstrap (Some m) this = Ok (tt, this')
    ∧ advertisement this' = Some adv
    ∧ Advertisement.running adv = true
    ∧ Advertisement.port adv = ClusterConfig.port (config this)
    ∧ Advertisement.networkInterface adv = ClusterConfig.networkInterface (config this)
    ∧ browser this' = Some br
    ∧ Browser.running br = true
    ∧ Browser.listeners br = ["serviceUp"%string; "error"%string]
    ∧ Browser.resolverSequence br
      = [ DNSServiceResolve;
          if Mdns.has_DNSServiceGetAddrInfo m then DNSServiceGetAddrInfo
          else getaddrinfo [0%Z];
          makeAddressesUnique ]
    ∧ outbox this'
      = outbox this ++ [("peers"%string, PeersPayload (Options.peers (options this)))]
    ∧ options this' = options this
    ∧ _nodes this' = _nodes this.
Proof.
  intros Hauto. unfold onApplicationBootstrap. rewrite bind_get, Hauto.
  eexists _, _, _. split; [reflexivity|]. simpl. done.
Qed.

Lemma onApplicationBootstrap_starts_discovery_witness :
  ∃ this' adv br,
    onApplicationBootstrap (Some sample_mdns) sample = Ok (tt, this')
    ∧ advertisement this' = Some adv
    ∧ Advertisement.running adv = true
    ∧ Advertisement.port adv = ClusterConfig.port (config sample)
    ∧ Advertisement.networkInterface adv = ClusterConfig.networkInterface (config sample)
    ∧ browser this' = Some br
    ∧ Browser.running br = true
    ∧ Browser.listeners br = ["serviceUp"%string; "error"%string]
    ∧ Browser.resolverSequence br
      = [ DNSServiceResolve;
          if Mdns.has_DNSServiceGetAddrInfo sample_mdns then DNSServiceGetAddrInfo
          else getaddrinfo [0%Z];
          makeAddressesUnique ]
    ∧ outbox this'
      = outbox sample ++ [("peers"%string, PeersPayload (Options.peers (options sample)))]
    ∧ options this' = options sample
    ∧ _nodes this' = _nodes sample.
Proof. exact (onApplicationBootstrap_starts_discovery sample_mdns sample eq_refl). Defined.

(** X11. With [autoDiscovery] off, bootstrap is the peers broadcast alone,
    whether or not the [mdns] module is loaded: nothing is logged and no
    advertisement or browser is created. *)
Theorem onApplicationBootstrap_without_autoDiscovery (mdns : option Mdns.t)
    (this : ClusterService) :
  ClusterConfig.autoDiscovery (config this) = false →
  onApplicationBootstrap mdns this = broadcastPeers this
  ∧ ∃ this',
      onApplicationBootstrap mdns this = Ok (tt, this')
      ∧ log this' = log this
      ∧ advertisement this' = advertisement this
      ∧ browser this' = browser this.
Proof.
  intros Hauto. unfold onApplicationBootstrap. rewrite bind_get, Hauto.
  split; [reflexivity|]. eexists. split; [reflexivity|]. done.
Qed.

Lemma onApplicationBootstrap_without_autoDiscovery_witness :
  let quiet :=
    with_config
      (ClusterConfig.mk None 6425 60 (Some 1%Z) (Some 2%Z) false ["192.168.1.11:6425"%string])
      sample in
  onApplicationBootstrap (Some sample_mdns) quiet = broadcastPeers quiet
  ∧ ∃ this',
      onApplicationBootstrap (Some sample_mdns) quiet = Ok (tt, this')
      ∧ log this' = log quiet
      ∧ advertisement this' = advertisement quiet
      ∧ browser this' = browser quiet.
Proof.
  intros quiet.
  exact (onApplicationBootstrap_without_autoDiscovery (Some sample_mdns) quiet eq_refl).
Defined.

(** X12. Shutdown after a bootstrap that started discovery leaves the
    advertisement and the browser in place and stopped; the peers message
    that bootstrap sent stays the last one in the outbox. *)
Theorem bootstrap_then_shutdown (m : Mdns.t) (this : ClusterService) :
  ClusterConfig.autoDiscovery (config this) = true →
  ∃ this' adv br,
    (onApplicationBootstrap (Some m) ;; onApplicationShutdown) this = Ok (tt, this')
    ∧ advertisement this' = Some adv
    ∧ Advertisement.running adv = false
    ∧ browser this' = Some br
    ∧ Browser.running br = false
    ∧ outbox this'
      = outbox this ++ [("peers"%string, PeersPayload (Options.peers (options this)))].
Proof.
  intros Hauto. rewrite bind_run.
  unfold onApplicationBootstrap. rewrite bind_get, Hauto.
  eexists _, _, _. split; [reflexivity|]. simpl. done.
Qed.

Lemma bootstrap_then_shutdown_witness :
  ∃ this' adv br,
    (onApplicationBootstrap (Some sample_mdns) ;; onApplicationShutdown) sample
    = Ok (tt, this')
    ∧ advertisement this' = Some adv
    ∧ Advertisement.running adv = false
    ∧ browser this' = Some br
    ∧ Browser.running br = false
    ∧ outbox this'
      = outbox sample ++ [("peers"%string, PeersPayload (Options.peers (options sample)))].
Proof. exact (bootstrap_then_shutdown sample_mdns sample eq_refl). Defined.

(** X14. On an instance that never started discovery, shutdown changes
    nothing: the optional calls on the missing advertisement and browser
    are skipped. *)
Theorem onApplicationShutdown_without_discovery (this : ClusterService) :
  advertisement this = None →
  browser this = None →
  onApplicationShutdown this = Ok (tt, this).
Proof.
  destruct this as [? ? adv br ? ? ? ? ? ?]. simpl. intros -> ->. reflexivity.
Qed.

Lemma onApplicationShutdown_without_discovery_witness :
  onApplicationShutdown sample = Ok (tt, sample).
Proof. exact (onApplicationShutdown_without_discovery sample eq_refl eq_refl). Defined.

(** ** Construction, continued *)

Lemma find_first {A} (f : A → bool) (l : list A) (x : A) :
  List.find f l = Some x →
  ∃ before after,
    l = before ++ x :: after ∧ Forall (λ y, f y = false) before ∧ f x = true.
Proof.
  induction l as [|y l IH]; simpl; [done|].
  destruct (f y) eqn:Hy.
  - intros [= ->]. by exists [], l.
  - intros (before & after & -> & Hbefore & Hx)%IH.
    exists (y :: before), after. split; [done|]. split; [by constructor|done].
Qed.

Lemma constructor_inv (makeId : string → string)
    (Democracy : DemocracyOptions.t → ClusterService)
    (cfg : ClusterConfig.t) (instanceName : string)
    (os_networkInterfaces : list (string * list NetworkInterfaceInfo.t))
    (this : ClusterService) :
  constructor makeId Democracy cfg instanceName os_networkInterfaces = Ok this →
  ∃ found,
    List.find external_IPv4 (selectedInterfaces cfg os_networkInterfaces) = Some found
    ∧ this = with_config cfg
               (with_networkInterfaces (selectedInterfaces cfg os_networkInterfaces)
                  (Democracy (democracyOptions makeId cfg instanceName
                                (NetworkInterfaceInfo.address found)))).
Proof.
  unfold constructor.
  destruct (List.find external_IPv4 _) as [found|]; [|done].
  intros [= <-]. by exists found.
Qed.

(** X15. A successful construction uses the first non-internal IPv4
    address in interface order: every selected address before it is
    internal or not IPv4.  The engine receives the generated id, the
    configured peer addresses and weight, and the configured timeout
    multiplied by 1000; the instance keeps the configuration and the
    selected addresses. *)
Theorem constructor_uses_first_address (makeId : string → string)
    (Democracy : DemocracyOptions.t → ClusterService)
    (cfg : ClusterConfig.t) (instanceName : string)
    (os_networkInterfaces : list (string * list NetworkInterfaceInfo.t))
    (this : ClusterService) :
  constructor makeId Democracy cfg instanceName os_networkInterfaces = Ok this →
  ∃ before found after opts,
    selectedInterfaces cfg os_networkInterfaces = before ++ found :: after
    ∧ Forall (λ info, NetworkInterfaceInfo.internal info = true
                      ∨ NetworkInterfaceInfo.family info ≠ "IPv4"%string) before
    ∧ NetworkInterfaceInfo.internal found = false
    ∧ NetworkInterfaceInfo.family found = "IPv4"%string
    ∧ this = with_config cfg
               (with_networkInterfaces (selectedInterfaces cfg os_networkInterfaces)
                  (Democracy opts))
    ∧ opts = DemocracyOptions.mk (makeId instanceName)
               (NetworkInterfaceInfo.address found ++ ":"
                ++ toString (ClusterConfig.port cfg))%string
               (ClusterConfig.peerAddresses cfg)
               (ClusterConfig.timeout cfg * 1000)%Z
               (ClusterConfig.weight cfg)
    ∧ config this = cfg
    ∧ networkInterfaces this = selectedInterfaces cfg os_networkInterfaces.
Proof.
  intros (found & Hfind & ->)%constructor_inv.
  destruct (find_first _ _ _ Hfind) as (before & after & Hsplit & Hbefore & Hfound).
  unfold external_IPv4 in Hfound.
  apply andb_true_iff in Hfound as [Hint%bool_decide_eq_true Hfam%bool_decide_eq_true].
  exists before, found, after. eexists. split; [done|]. split.
  { eapply Forall_impl; [exact Hbefore|]. intros info Hinfo. simpl in Hinfo.
    unfold external_IPv4 in Hinfo. apply andb_false_iff in Hinfo as [H|H].
    - left. apply bool_decide_eq_false in H.
      by destruct (NetworkInterfaceInfo.internal info).
    - right. by apply bool_decide_eq_false in H. }
  done.
Qed.

Lemma constructor_uses_first_address_witness :
  ∃ before found after opts,
    selectedInterfaces sample_config sample_interfaces = before ++ found :: after
    ∧ Forall (λ info, NetworkInterfaceInfo.internal info = true
                      ∨ NetworkInterfaceInfo.family info ≠ "IPv4"%string) before
    ∧ NetworkInterfaceInfo.internal found = false
    ∧ NetworkInterfaceInfo.family found = "IPv4"%string
    ∧ sample = with_config sample_config
                 (with_networkInterfaces (selectedInterfaces sample_config sample_interfaces)
                    ((λ _, sample) opts))
    ∧ opts = DemocracyOptions.mk ((λ name : string, name) "kitchen"%string)
               (NetworkInterfaceInfo.address found ++ ":"
                ++ toString (ClusterConfig.port sample_config))%string
               (ClusterConfig.peerAddresses sample_config)
               (ClusterConfig.timeout sample_config * 1000)%Z
               (ClusterConfig.weight sample_config)
    ∧ config sample = sample_config
    ∧ networkInterfaces sample = selectedInterfaces sample_config sample_interfaces.
Proof.
  apply (constructor_uses_first_address (λ name, name) (λ _, sample) sample_config
           "kitchen" sample_interfaces sample).
  vm_compute. reflexivity.
Defined.

(** X16. When a network interface is configured, only the addresses the
    host lists under that name count: construction throws exactly when
    none of them is a non-internal IPv4 address, in particular when the
    host has no interface of that name, whatever its other interfaces
    offer. *)
Theorem constructor_configured_interface (makeId : string → string)
    (Democracy : DemocracyOptions.t → ClusterService)
    (cfg : ClusterConfig.t) (instanceName : string)
    (os_networkInterfaces : list (string * list NetworkInterfaceInfo.t))
    (c : Ascii.ascii) (rest : string) :
  ClusterConfig.networkInterface cfg = Some (String c rest) →
  ((∃ e, constructor makeId Democracy cfg instanceName os_networkInterfaces = Throw e)
   ↔ ¬ ∃ infos info,
         interfaces_of os_networkInterfaces (String c rest) = Some infos
         ∧ info ∈ infos
         ∧ NetworkInterfaceInfo.internal info = false
         ∧ NetworkInterfaceInfo.family info = "IPv4"%string)
  ∧ (interfaces_of os_networkInterfaces (String c rest) = None →
     ∃ e, constructor makeId Democracy cfg instanceName os_networkInterfaces = Throw e).
Proof.
  intros Hif.
  assert (selectedInterfaces cfg os_networkInterfaces
          = default [] (interfaces_of os_networkInterfaces (String c rest))) as Hsel.
  { unfold selectedInterfaces. by rewrite Hif. }
  assert ((∃ e, constructor makeId Democracy cfg instanceName os_networkInterfaces = Throw e)
          ↔ List.find external_IPv4 (selectedInterfaces cfg os_networkInterfaces) = None)
    as Hthrow.
  { unfold constructor. destruct (List.find external_IPv4 _); split; try done.
    - by intros [e ?].
    - by eauto. }
  split.
  - rewrite Hthrow, find_external_IPv4_None, Hsel.
    destruct (interfaces_of os_networkInterfaces (String c rest)) as [infos|]; simpl.
    + split; intros Hno.
      * intros (infos' & info & [= <-] & ?). apply Hno. by exists info.
      * intros (info & ?). apply Hno. by exists infos, info.
    + split; intros _.
      * by intros (infos' & info & ? & _).
      * intros (info & Hin & _). by apply elem_of_nil in Hin.
  - intros Hnone. apply Hthrow. by rewrite Hsel, Hnone.
Qed.

Lemma constructor_configured_interface_witness :
  ((∃ e, constructor (λ name, name) (λ _, sample) sample_config_wlan "kitchen"
           sample_interfaces = Throw e)
   ↔ ¬ ∃ infos info,
         interfaces_of sample_interfaces "wlan0" = Some infos
         ∧ info ∈ infos
         ∧ NetworkInterfaceInfo.internal info = false
         ∧ NetworkInterfaceInfo.family info = "IPv4"%string)
  ∧ (interfaces_of sample_interfaces "wlan0" = None →
     ∃ e, constructor (λ name, name) (λ _, sample) sample_config_wlan "kitchen"
            sample_interfaces = Throw e).
Proof.
  exact (constructor_configured_interface (λ name, name) (λ _, sample) sample_config_wlan
           "kitchen" sample_interfaces (Ascii.ascii_of_nat 119) "lan0" eq_refl).
Defined.

(** X17. With no network interface configured, or the empty string, every
    interface of the host is searched: construction throws exactly when no
    interface at all lists a non-internal IPv4 address. *)
Theorem constructor_any_interface (makeId : string → string)
    (Democracy : DemocracyOptions.t → ClusterService)
    (cfg : ClusterConfig.t) (instanceName : string)
    (os_networkInterfaces : list (string * list NetworkInterfaceInfo.t)) :
  ClusterConfig.networkInterface cfg = None
  ∨ ClusterConfig.networkInterface cfg = Some EmptyString →
  (∃ e, constructor makeId Democracy cfg instanceName os_networkInterfaces = Throw e)
  ↔ ¬ ∃ name infos info,
        (name, infos) ∈ os_networkInterfaces
        ∧ info ∈ infos
        ∧ NetworkInterfaceInfo.internal info = false
        ∧ NetworkInterfaceInfo.family info = "IPv4"%string.
Proof.
  intros Hif.
  assert (selectedInterfaces cfg os_networkInterfaces = concat (snd <$> os_networkInterfaces))
    as Hsel.
  { unfold selectedInterfaces. by destruct Hif as [-> | ->]. }
  assert ((∃ e, constructor makeId Democracy cfg instanceName os_networkInterfaces = Throw e)
          ↔ List.find external_IPv4 (selectedInterfaces cfg os_networkInterfaces) = None)
    as ->.
  { unfold constructor. destruct (List.find external_IPv4 _); split; try done.
    - by intros [e ?].
    - by eauto. }
  rewrite find_external_IPv4_None, Hsel. split; intros Hno.
  - intros (name & infos & info & Hin & Hinfo & ?). apply Hno. exists info.
    split; [|done]. apply list_elem_of_In, in_concat. exists infos.
    split; [|by apply list_elem_of_In].
    apply list_elem_of_In, list_elem_of_fmap. by exists (name, infos).
  - intros (info & Hin & ?).
    apply list_elem_of_In, in_concat in Hin as (infos & Hinfos & Hinfo).
    apply list_elem_of_In, list_elem_of_fmap in Hinfos as ([name infos'] & -> & Hpair).
    apply Hno. exists name, infos', info. split; [done|].
    split; [by apply list_elem_of_In|done].
Qed.

Lemma constructor_any_interface_witness :
  (∃ e, constructor (λ name, name) (λ _, sample) sample_config "kitchen"
          sample_interfaces = Throw e)
  ↔ ¬ ∃ name infos info,
        (name, infos) ∈ sample_interfaces
        ∧ info ∈ infos
        ∧ NetworkInterfaceInfo.internal info = false
        ∧ NetworkInterfaceInfo.family info = "IPv4"%string.
Proof.
  apply (constructor_any_interface (λ name, name) (λ _, sample) sample_config "kitchen"
           sample_interfaces).
  left. reflexivity.
Defined.

(** X18. A constructed instance ignores a discovered service that carries
    any address of the interfaces selected at construction, its own
    announcement among them: the peer list is unchanged and no hello is
    sent. *)
Theorem constructed_ignores_own_service (makeId : string → string)
    (Democracy : DemocracyOptions.t → ClusterService)
    (cfg : ClusterConfig.t) (instanceName : string)
    (os_networkInterfaces : list (string * list NetworkInterfaceInfo.t))
    (this : ClusterService) (service : Service.t) (info : NetworkInterfaceInfo.t) :
  constructor makeId Democracy cfg instanceName os_networkInterfaces = Ok this →
  info ∈ selectedInterfaces cfg os_networkInterfaces →
  NetworkInterfaceInfo.address info ∈ Service.addresses service →
  handleNodeDiscovery service this = Ok (tt, this).
Proof.
  intros (found & _ & ->)%constructor_inv Hinfo Haddr.
  apply (handleNodeDiscovery_ignored service _ (NetworkInterfaceInfo.address info));
    [done|].
  left. unfold own_address. simpl. apply list_elem_of_fmap. by exists info.
Qed.

Lemma constructed_ignores_own_service_witness :
  handleNodeDiscovery own_service sample = Ok (tt, sample).
Proof.
  apply (constructed_ignores_own_service (λ name, name) (λ _, sample) sample_config
           "kitchen" sample_interfaces sample own_service
           (NetworkInterfaceInfo.mk "192.168.1.10" "IPv4" false)).
  - vm_compute. reflexivity.
  - vm_compute. do 3 right. left.
  - vm_compute. right. left.
Defined.

(** ** Merging peer lists, continued *)

Lemma merge_peers_app (existing first second : list Peer) :
  merge_peers existing (first ++ second) = merge_peers (merge_peers existing first) second.
Proof.
  revert existing. induction first as [|peer rest IH]; intros existing; simpl; [done|].
  apply IH.
Qed.

Lemma merge_peers_keys (existing incoming : list Peer) (k : JsVal * JsVal) :
  k ∈ peer_key <$> merge_peers existing incoming
  ↔ k ∈ peer_key <$> existing ∨ k ∈ peer_key <$> incoming.
Proof.
  revert existing. induction incoming as [|peer rest IH]; intros existing; simpl.
  - split; [by left|]. intros [?|Hin]; [done|]. by apply elem_of_nil in Hin.
  - rewrite IH, elem_of_cons.
    destruct (existsb (same_peer peer) existing) eqn:Hpeer.
    + apply existsb_same_peer in Hpeer. split; [tauto|].
      intros [?|[->|?]]; tauto.
    + rewrite fmap_app, elem_of_app. simpl. rewrite list_elem_of_singleton. tauto.
Qed.

Lemma addMissingPeers_twice_run (first second : list Peer) (this : ClusterService) :
  (addMissingPeers first ;; addMissingPeers second) this
  = Ok (tt, with_peers
              (merge_peers (merge_peers (Options.peers (options this)) first) second) this).
Proof.
  rewrite bind_run, (addMissingPeers_run first). cbv beta iota.
  by rewrite addMissingPeers_run.
Qed.

(** X19. Merging a list received in two parts, one after the other, gives
    the same peer list as merging the whole list at once. *)
Theorem addMissingPeers_app (first second : list Peer) (this : ClusterService) :
  addMissingPeers (first ++ second) this
  = (addMissingPeers first ;; addMissingPeers second) this.
Proof.
  rewrite addMissingPeers_twice_run, addMissingPeers_run.
  by rewrite merge_peers_app.
Qed.

(** X20. After a merge the (host, port) pairs in the peer list are those
    that were there before together with those of the incoming list, no
    more and no fewer. *)
Theorem addMissingPeers_keys (incoming : list Peer) (this : ClusterService) :
  ∃ this',
    addMissingPeers incoming this = Ok (tt, this')
    ∧ ∀ k, k ∈ peer_key <$> Options.peers (options this')
           ↔ k ∈ peer_key <$> Options.peers (options this) ∨ k ∈ peer_key <$> incoming.
Proof.
  eexists. split; [apply addMissingPeers_run|].
  intros k. simpl. apply merge_peers_keys.
Qed.

(** X21. The order in which two peer lists arrive does not matter for
    which (host, port) pairs end up in the peer list: merging one then the
    other, or the other then the one, gives the same pairs. *)
Theorem addMissingPeers_order_independent (first second : list Peer)
    (this : ClusterService) :
  ∃ this1 this2,
    (addMissingPeers first ;; addMissingPeers second) this = Ok (tt, this1)
    ∧ (addMissingPeers second ;; addMissingPeers first) this = Ok (tt, this2)
    ∧ ∀ k, k ∈ peer_key <$> Options.peers (options this1)
           ↔ k ∈ peer_key <$> Options.peers (options this2).
Proof.
  rewrite !addMissingPeers_twice_run.
  eexists _, _. split; [reflexivity|]. split; [reflexivity|].
  intros k. simpl. rewrite !merge_peers_keys. tauto.
Qed.

(** X22. A node-added event after a merge broadcasts the merged list: the
    last message in the outbox is a peers message whose payload is the
    peer list as the merge left it, holding the (host, port) of every
    incoming entry; the handler itself leaves the peer list alone. *)
Theorem handleNodeAdded_broadcasts_merged (incoming : list Peer) (node : Node.t)
    (this : ClusterService) :
  ∃ this' payload,
    (addMissingPeers incoming ;; handleNodeAdded node) this = Ok (tt, this')
    ∧ outbox this' = outbox this ++ [("peers"%string, PeersPayload payload)]
    ∧ Options.peers (options this') = payload
    ∧ (∀ peer, peer ∈ Options.peers (options this) → peer ∈ payload)
    ∧ (∀ peer, peer ∈ incoming → peer_key peer ∈ peer_key <$> payload).
Proof.
  rewrite bind_run, addMissingPeers_run. cbv beta iota.
  eexists _, _. split; [reflexivity|]. simpl.
  split; [done|]. split; [done|]. split.
  - intros peer Hin. rewrite merge_peers_fresh. apply elem_of_app. by left.
  - intros peer Hin. by apply merge_peers_contains.
Qed.

Lemma findIndex_from_spec {A} (f : A → bool) (l : list A) (start : Z) :
  (findIndex_from f l start = (-1)%Z ∧ Forall (λ x, f x = false) l)
  ∨ ∃ i x,
      findIndex_from f l start = (start + Z.of_nat i)%Z
      ∧ l !! i = Some x ∧ f x = true
      ∧ ∀ j y, j < i → l !! j = Some y → f y = false.
Proof.
  revert start. induction l as [|y l IH]; intros start; simpl.
  - left. by split.
  - destruct (f y) eqn:Hy.
    + right. exists 0, y. rewrite Z.add_0_r. split; [done|]. split; [done|].
      split; [done|]. intros j z Hj. lia.
    + destruct (IH (start + 1)%Z) as [[Hnone Hall]|(i & x & Hi & Hx & Hfx & Hbefore)].
      * left. split; [done|]. by constructor.
      * right. exists (S i), x. split; [rewrite Hi; lia|]. split; [done|].
        split; [done|]. intros [|j] z Hj Hz; simpl in Hz.
        -- by simplify_eq.
        -- apply (Hbefore j z); [lia|done].
Qed.

(** X23. [findIndex], as [addMissingPeers] relies on it: the answer is -1
    exactly when no element passes the test, and otherwise the position of
    the first element that passes, within the bounds of the list. *)
Theorem findIndex_spec {A} (f : A → bool) (l : list A) :
  (findIndex f l = (-1)%Z ∧ ∀ x, x ∈ l → f x = false)
  ∨ ∃ i x,
      findIndex f l = Z.of_nat i
      ∧ i < length l
      ∧ l !! i = Some x ∧ f x = true
      ∧ ∀ j y, j < i → l !! j = Some y → f y = false.
Proof.
  unfold findIndex.
  destruct (findIndex_from_spec f l 0%Z) as [[Hnone Hall]|(i & x & Hi & Hx & Hfx & Hbefore)].
  - left. split; [done|]. by apply Forall_forall.
  - right. exists i, x. split; [by rewrite Hi|].
    split; [by eapply lookup_lt_Some|]. done.
Qed.
